(** * Task Management System: sharing, notifications, analytics, authentication

    A shallow embedding of the server side of the task tracker
    (Express routes over Mongoose models, Socket.IO notifications)
    together with the properties its specification states about it.

    Sources embedded here:
    - [middleware/auth.js]      : [authMiddleware], [listenForNotifications]
    - [models/Task.js]          : [TaskSchema]
    - [routes/tasks.js]         : [PUT /:id/share], [GET /shared]
    - [routes/analytics.js]     : [GET /overview], [GET /trends]

    Identifiers (Mongo ObjectIds) are strings, the 24 hexadecimal digits
    in lower case that the store prints for them; instants are
    milliseconds since the epoch, as in a JavaScript [Date]. *)

From Stdlib Require Import ZArith String Ascii OrderedTypeEx.
From stdpp Require Import base gmap list strings sorting.

(* ================================================================== *)
(** * Documents *)
(* ================================================================== *)

(** [models/User.js]: a login identity. *)
Module User.
Record t : Type := mk {
  _id : string;
  username : string;
  password : string;
}.
End User.

Record Attachment : Type := mkAttachment {
  att_name : option string;
  att_url : option string;
}.

(** [models/Task.js]: the fields of [TaskSchema], with the two
    timestamps that [{ timestamps: true }] adds.  A field that a document
    may lack, or hold as [null], is an [option].  The document's [_id] is
    its key in the collection. *)
Record Task : Type := mkTask {
  title : option string;
  description : option string;
  status : option string;
  dueDate : option Z;
  owner : option string;
  sharedWith : list string;
  attachments : list Attachment;
  createdAt : Z;
  updatedAt : Z;
}.

(** The [enum] of the [status] path. *)
Definition TASK_STATUS : list string :=
  ["Pending"; "In Progress"; "Completed"]%string.

(** [includes] on an array of identifiers.  A Mongoose array compares
    the value it is asked about with each stored ObjectId by [==], that
    is, a string with the text [toString()] gives for the ObjectId: its
    24 hexadecimal digits, in lower case. *)
Fixpoint includes (l : list string) (x : string) : bool :=
  match l with
  | [] => false
  | y :: r => String.eqb y x || includes r x
  end.

(** How Mongoose casts a string to an ObjectId: 24 hexadecimal digits
    in either case are accepted, other text is refused with a
    [CastError].  The ObjectId is kept as the text that [toString()]
    gives for it. *)
Definition is_hex (c : ascii) : bool :=
  let n := nat_of_ascii c in
  ((48 <=? n) && (n <=? 57) || (65 <=? n) && (n <=? 70) || (97 <=? n) && (n <=? 102))%nat.

Definition lower_hex (c : ascii) : ascii :=
  let n := nat_of_ascii c in
  if ((65 <=? n) && (n <=? 70))%nat then ascii_of_nat (n + 32) else c.

Fixpoint all_hex (s : string) : bool :=
  match s with
  | EmptyString => true
  | String c rest => is_hex c && all_hex rest
  end.

Fixpoint to_lower_hex (s : string) : string :=
  match s with
  | EmptyString => EmptyString
  | String c rest => String (lower_hex c) (to_lower_hex rest)
  end.

Definition castObjectId (text : string) : option string :=
  if (String.length text =? 24)%nat && all_hex text then Some (to_lower_hex text) else None.

(** The validators of [TaskSchema], run by [save]: [title] and [owner]
    are [required] (for a string path, the empty string does not
    satisfy [required]); a [status] that is a string has to be a member
    of the [enum], and the [enum] validator lets [null] pass. *)
Definition required_string (v : option string) : bool :=
  match v with
  | Some s => negb (String.eqb s "")
  | None => false
  end.

Definition required_id (v : option string) : bool :=
  match v with
  | Some _ => true
  | None => false
  end.

Definition enum_validator (values : list string) (v : option string) : bool :=
  match v with
  | Some s => includes values s
  | None => true
  end.

Definition TaskSchema_validate (t : Task) : bool :=
  required_string (title t) && enum_validator TASK_STATUS (status t)
    && required_id (owner t).

(** The [default] of the [status] path, applied when a document is
    constructed: it fills in a value that is [undefined] ([None] here),
    and leaves one that is given, [null] ([Some None]) included. *)
Definition status_default (given : option (option string)) : option string :=
  match given with
  | Some v => v
  | None => Some "Pending"%string
  end.

Definition set_sharedWith (l : list string) (t : Task) : Task :=
  mkTask (title t) (description t) (status t) (dueDate t) (owner t) l
         (attachments t) (createdAt t) (updatedAt t).

Definition set_updatedAt (now : Z) (t : Task) : Task :=
  mkTask (title t) (description t) (status t) (dueDate t) (owner t)
         (sharedWith t) (attachments t) (createdAt t) now.

(* ================================================================== *)
(** * The notification channel (Socket.IO) *)
(* ================================================================== *)

(** The payload of a notification: [{ message }]. *)
Record Payload : Type := mkPayload { message : string }.

(** A client socket: whether it is connected, the listeners registered
    with [socket.on] (event name and callback, in registration order),
    the log of callback invocations, and the log of the event packets
    that arrived over the connection, listened to or not. *)
Record ClientSocket : Type := mkClient {
  connected : bool;
  listeners : list (string * nat);
  calls : list (nat * Payload);
  packets : list (string * Payload);
}.

(** The server object [io]: the sockets it knows, and the log of the
    events it was asked to emit. *)
Record IoServer : Type := mkIo {
  sockets : list ClientSocket;
  emitted : list (string * Payload);
}.

(** [`notify:${userId}`], the event name used on both sides. *)
Definition notify (userId : string) : string := "notify:" +:+ userId.

(** [socket.on(ev, callback)]. *)
Definition socket_on (ev : string) (callback : nat) (c : ClientSocket) : ClientSocket :=
  mkClient (connected c) (listeners c ++ [(ev, callback)]) (calls c) (packets c).

(** [frontend/socket.js]: [listenForNotifications(userId, callback)]. *)
Definition listenForNotifications (userId : string) (callback : nat)
    (c : ClientSocket) : ClientSocket :=
  socket_on (notify userId) callback c.

(** What a socket does with an incoming event packet: every listener
    registered under that name is called once with the payload. *)
Definition invoked (ev : string) (p : Payload) (ls : list (string * nat))
    : list (nat * Payload) :=
  (λ l, (l.2, p)) <$> filter (λ l, l.1 = ev) ls.

Definition socket_receive (ev : string) (p : Payload) (c : ClientSocket) : ClientSocket :=
  if connected c
  then mkClient (connected c) (listeners c) (calls c ++ invoked ev p (listeners c))
                (packets c ++ [(ev, p)])
  else c.

(** [io.emit(ev, payload)]: a broadcast; the packet goes to every
    connected socket. *)
Definition io_emit (ev : string) (p : Payload) (srv : IoServer) : IoServer :=
  mkIo (socket_receive ev p <$> sockets srv) (emitted srv ++ [(ev, p)]).

(* ================================================================== *)
(** * The process state and the request monad *)
(* ================================================================== *)

(** The state a request handler can read and write: the two
    collections, and the value stored under [app.set('io', io)] (absent
    when the application was started without the socket server). *)
Record World : Type := mkWorld {
  users : gmap string User.t;
  tasks : gmap string Task;
  app_io : option IoServer;
}.

(** The calls into the document store made by the handlers. *)
Inductive StoreCall : Type :=
| UserFindById
| TaskFindById
| TaskSave
| TaskDelete
| TaskFind
| TaskAggregate
| UserSave.

(** What [jwt.verify] decodes from a token; [decoded.id] may be missing. *)
Record JwtPayload : Type := mkPayloadJwt { jwt_id : option string }.

(** The conditions under which one request runs: the clock, the
    server's local time zone, which store calls fail (connection lost,
    and so on), and the result of
    [jwt.verify(token, process.env.JWT_SECRET)] for each token ([None]
    when it throws: bad signature, expired, malformed, no secret).

    The time zone is ECMAScript's [LocalTZA(t, isUTC)]: the offset of
    local time from UTC in milliseconds, at the instant [t] when [isUTC]
    is [true], and for the local reading [t] when it is [false].  With
    daylight saving time the offset depends on [t]. *)
Record Env : Type := mkEnv {
  now : Z;
  LocalTZA : Z → bool → Z;
  failing : StoreCall → bool;
  jwt_verify : string → option JwtPayload;
}.

(** The outcome of evaluating JavaScript code: a value, or an exception. *)
Inductive completion (A : Type) : Type :=
| Normal (a : A)
| Thrown (e : string).
Arguments Normal {A} a.
Arguments Thrown {A} e.

(** Handlers thread the world; a thrown exception keeps the writes made
    before it. *)
Definition Js (A : Type) : Type := World → completion A * World.

Definition ret {A} (a : A) : Js A := λ w, (Normal a, w).

Definition throw {A} (e : string) : Js A := λ w, (Thrown e, w).

Definition bind {A B} (m : Js A) (k : A → Js B) : Js B :=
  λ w, match m w with
       | (Normal a, w') => k a w'
       | (Thrown e, w') => (Thrown e, w')
       end.

(** [try { body } catch (err) { handler }]. *)
Definition try_catch {A} (body : Js A) (handler : string → Js A) : Js A :=
  λ w, match body w with
       | (Normal a, w') => (Normal a, w')
       | (Thrown e, w') => handler e w'
       end.

Notation "x <- m ;; k" := (bind m (λ x, k))
  (at level 100, m at next level, right associativity).
Notation "m ;;; k" := (bind m (λ _, k))
  (at level 100, right associativity).

(** Reading a property of [null] or [undefined] throws a [TypeError]. *)
Definition deref {A} (v : option A) : Js A :=
  match v with
  | Some a => ret a
  | None => throw "TypeError"
  end.

(* ================================================================== *)
(** * Requests and responses *)
(* ================================================================== *)

Record Request : Type := mkRequest {
  authorization : option string;      (* req.headers.authorization *)
  params_id : string;                 (* req.params.id *)
  body_userIdToShare : string;        (* req.body.userIdToShare, a string *)
  user : option User.t;               (* req.user *)
}.

Inductive Body : Type :=
| JsonMsg (msg : string)                       (* { msg } *)
| JsonTask (id : string) (t : Task)            (* one task document *)
| JsonTasks (l : list (string * Task))         (* an array of task documents *)
| JsonCounts (rows : list (option string * nat))  (* rows { _id, count } *)
| JsonCreated (rows : list (string * nat)).    (* rows { _id, created } *)

Record Response : Type := mkResponse {
  code : Z;
  body : Body;
}.

(** [res.status(c).json({ msg })] and [res.json(x)]. *)
Definition status_json (c : Z) (msg : string) : Response := mkResponse c (JsonMsg msg).
Definition json (b : Body) : Response := mkResponse 200 b.

(* ================================================================== *)
(** * The models' store operations *)
(* ================================================================== *)

(** [Task.findById(id)]: the document, or [null]. *)
Definition Task_findById (env : Env) (id : string) : Js (option Task) :=
  λ w, if failing env TaskFindById then (Thrown "MongoError", w)
       else (Normal (tasks w !! id), w).

(** [User.findById(id)]. *)
Definition User_findById (env : Env) (id : option string) : Js (option User.t) :=
  λ w, if failing env UserFindById then (Thrown "MongoError", w)
       else (Normal (id ≫= λ i, users w !! i), w).

(** [task.save()]: validates against the schema, stamps [updatedAt] and
    writes the document under its [_id]. *)
Definition Task_save (env : Env) (id : string) (t : Task) : Js Task :=
  λ w, if failing env TaskSave then (Thrown "MongoError", w)
       else if TaskSchema_validate t
       then let t' := set_updatedAt (now env) t in
            (Normal t', mkWorld (users w) (<[id := t']> (tasks w)) (app_io w))
       else (Thrown "ValidationError", w).

(** [io.emit] through the value of [req.app.get('io')]. *)
Definition app_emit (ev : string) (p : Payload) : Js unit :=
  λ w, match app_io w with
       | Some srv => (Normal (), mkWorld (users w) (tasks w) (Some (io_emit ev p srv)))
       | None => (Thrown "TypeError", w)
       end.

(* ================================================================== *)
(** * [routes/tasks.js] *)
(* ================================================================== *)

(** The quotation mark (character 34) of the notification text. *)
Definition dquote : string := String (ascii_of_nat 34) EmptyString.

(** [`${x}`] for a string that may be [undefined]. *)
Definition interpolate (v : option string) : string := default "undefined" v.

(** The template literal of the notification text: the title between
    quotation marks, inside a fixed sentence. *)
Definition share_message (t : Task) : string :=
  "A task titled " +:+ dquote +:+ interpolate (title t) +:+ dquote
    +:+ " was shared with you.".

(** [router.put('/:id/share', authMiddleware, ...)]: the handler, on a
    request whose two identifiers are ObjectIds in the text the store
    prints for them.  [Wire.share] below takes the request as any text. *)
Definition share (env : Env) (req : Request) : Js Response :=
  let id := params_id req in
  let userIdToShare := body_userIdToShare req in
  try_catch
    (found <- Task_findById env id ;;
     task <- deref found ;;
     task_owner <- deref (owner task) ;;
     req_user <- deref (user req) ;;
     if negb (String.eqb task_owner (User._id req_user))
     then ret (status_json 403 "Forbidden")
     else if negb (includes (sharedWith task) userIdToShare)
     then
       let pushed := set_sharedWith (sharedWith task ++ [userIdToShare]) task in
       saved <- Task_save env id pushed ;;
       app_emit (notify userIdToShare) (mkPayload (share_message saved)) ;;;
       ret (json (JsonTask id saved))
     else ret (json (JsonTask id task)))
    (λ _, ret (status_json 500 "Error sharing task")).

(** The same handler on the request as it arrives: [req.params.id] and
    [req.body.userIdToShare] are strings that the client chose.
    [findById] and [push] cast their argument to an ObjectId and throw
    when that fails; [includes] and the template literal of the event
    name take the string as it is. *)
Module Wire.
Definition cast (text : string) : Js string :=
  match castObjectId text with
  | Some oid => ret oid
  | None => throw "CastError"
  end.

Definition share (env : Env) (req : Request) : Js Response :=
  let id := params_id req in
  let userIdToShare := body_userIdToShare req in
  try_catch
    (oid <- cast id ;;
     found <- Task_findById env oid ;;
     task <- deref found ;;
     task_owner <- deref (owner task) ;;
     req_user <- deref (user req) ;;
     if negb (String.eqb task_owner (User._id req_user))
     then ret (status_json 403 "Forbidden")
     else if negb (includes (sharedWith task) userIdToShare)
     then
       pushed_id <- cast userIdToShare ;;
       let pushed := set_sharedWith (sharedWith task ++ [pushed_id]) task in
       saved <- Task_save env oid pushed ;;
       app_emit (notify userIdToShare) (mkPayload (share_message saved)) ;;;
       ret (json (JsonTask oid saved))
     else ret (json (JsonTask oid task)))
    (λ _, ret (status_json 500 "Error sharing task")).
End Wire.

(** [router.get('/shared', authMiddleware, ...)]: the tasks whose
    [sharedWith] contains the requester. *)
Definition shared (env : Env) (req : Request) : Js Response :=
  try_catch
    (req_user <- deref (user req) ;;
     λ w, if failing env TaskFind then (Thrown "MongoError", w)
          else (Normal (json (JsonTasks
                  (filter (λ d, includes (sharedWith d.2) (User._id req_user) = true)
                          (map_to_list (tasks w))))), w))
    (λ _, ret (status_json 500 "Error fetching shared tasks")).

(* ================================================================== *)
(** * [middleware/auth.js] *)
(* ================================================================== *)

(** [String.prototype.split] with a one-character separator. *)
Fixpoint split (sep : ascii) (s : string) : list string :=
  match s with
  | EmptyString => [EmptyString]
  | String c s' =>
      if Ascii.eqb c sep then EmptyString :: split sep s'
      else match split sep s' with
           | [] => [String c EmptyString]
           | word :: words => String c word :: words
           end
  end.

(** [req.headers.authorization?.split(' ')[1]]. *)
Definition header_token (header : option string) : option string :=
  header ≫= λ h, split " "%char h !! 1%nat.

(** JavaScript truthiness of a value that is a string or [undefined]. *)
Definition truthy (v : option string) : bool :=
  match v with
  | Some s => negb (String.eqb s "")
  | None => false
  end.

(** What a middleware does with a request: answer it, or call [next()]
    with the (possibly extended) request. *)
Inductive Middleware : Type :=
| Responded (r : Response)
| Next (req : Request).

Definition set_user (u : option User.t) (req : Request) : Request :=
  mkRequest (authorization req) (params_id req) (body_userIdToShare req) u.

Definition authMiddleware (env : Env) (req : Request) : Js Middleware :=
  let token := header_token (authorization req) in
  if negb (truthy token) then ret (Responded (status_json 401 "No token provided"))
  else
    try_catch
      (decoded <- deref (token ≫= jwt_verify env) ;;
       found <- User_findById env (jwt_id decoded) ;;
       match found with
       | None => throw "Error"
       | Some u => ret (Next (set_user (Some u) req))
       end)
      (λ _, ret (Responded (status_json 401 "Invalid token"))).

(** [router.METHOD(path, middleware, handler)]: the handler runs when,
    and only when, the middleware calls [next()]. *)
Definition route (middleware : Request → Js Middleware)
    (handler : Request → Js Response) (req : Request) : Js Response :=
  m <- middleware req ;;
  match m with
  | Responded r => ret r
  | Next req' => handler req'
  end.

(* ================================================================== *)
(** * Dates *)
(* ================================================================== *)

(** The proleptic Gregorian calendar of ECMAScript and of MongoDB, over
    day numbers counted from 1970-01-01. *)
Local Open Scope Z_scope.

Definition msPerDay : Z := 86400000.

Definition Day (t : Z) : Z := t `div` msPerDay.
Definition TimeWithinDay (t : Z) : Z := t `mod` msPerDay.

(** Day in the 400-year era to year of the era. *)
Definition year_of_era (doe : Z) : Z :=
  (doe - doe `div` 1460 + doe `div` 36524 - doe `div` 146096) `div` 365.

Definition day_of_year (doe : Z) : Z :=
  let yoe := year_of_era doe in
  doe - (365 * yoe + yoe `div` 4 - yoe `div` 100).

(** Day number to (year, month 1..12, day of month).  Internally years
    start on the first of March. *)
Definition civil_from_days (z : Z) : Z * Z * Z :=
  let z := z + 719468 in
  let era := z `div` 146097 in
  let doe := z - era * 146097 in
  let yoe := year_of_era doe in
  let doy := day_of_year doe in
  let mp := (5 * doy + 2) `div` 153 in
  let d := doy - (153 * mp + 2) `div` 5 + 1 in
  let m := if decide (mp < 10) then mp + 3 else mp - 9 in
  let y := yoe + era * 400 in
  (if decide (m ≤ 2) then y + 1 else y, m, d).

(** (year, month 1..12, day of month) to day number; the day may lie
    outside the month, as [MakeDay] needs. *)
Definition days_from_civil (y m d : Z) : Z :=
  let y := if decide (m ≤ 2) then y - 1 else y in
  let era := y `div` 400 in
  let yoe := y - era * 400 in
  let mp := if decide (2 < m) then m - 3 else m + 9 in
  let doy := (153 * mp + 2) `div` 5 + d - 1 in
  let doe := yoe * 365 + yoe `div` 4 - yoe `div` 100 + doy in
  era * 146097 + doe - 719468.

Definition YearFromTime (t : Z) : Z := (civil_from_days (Day t)).1.1.
Definition MonthFromTime (t : Z) : Z := (civil_from_days (Day t)).1.2 - 1.
Definition DateFromTime (t : Z) : Z := (civil_from_days (Day t)).2.

Definition MakeDay (year month date : Z) : Z :=
  let ym := year + month `div` 12 in
  let mn := month `mod` 12 in
  days_from_civil ym (mn + 1) 1 + date - 1.

Definition MakeDate (day time : Z) : Z := day * msPerDay + time.

Definition LocalTime (tza : Z → bool → Z) (t : Z) : Z := t + tza t true.
Definition UTC (tza : Z → bool → Z) (t : Z) : Z := t - tza t false.

(** [Date.prototype.getDate] and [Date.prototype.setDate]: day of the
    month, read and written in local time. *)
Definition Date_getDate (tza : Z → bool → Z) (t : Z) : Z := DateFromTime (LocalTime tza t).

Definition Date_setDate (tza : Z → bool → Z) (date t : Z) : Z :=
  let lt := LocalTime tza t in
  UTC tza (MakeDate (MakeDay (YearFromTime lt) (MonthFromTime lt) date)
                    (TimeWithinDay lt)).

(** Decimal digits, zero padded to a fixed width. *)
Definition digit (n : Z) : ascii := ascii_of_nat (48 + Z.to_nat (n `mod` 10))%nat.

Definition pad2 (n : Z) : string :=
  String (digit (n `div` 10)) (String (digit n) EmptyString).

Definition pad4 (n : Z) : string :=
  String (digit (n `div` 1000)) (String (digit (n `div` 100)) (pad2 n)).

(** The key [%Y-%m-%d] of a day number. *)
Definition day_key (day : Z) : string :=
  let '(y, m, d) := civil_from_days day in
  pad4 y +:+ "-" +:+ pad2 m +:+ "-" +:+ pad2 d.

(** [{ $dateToString: { format: '%Y-%m-%d', date } }], in UTC (no
    [timezone] is given), for years 0 to 9999. *)
Definition dateToString (t : Z) : string := day_key (Day t).

Local Close Scope Z_scope.

(* ================================================================== *)
(** * [routes/analytics.js] *)
(* ================================================================== *)

(** [{ $group: { _id: key, n: { $sum: 1 } } }] over the keys of the
    incoming documents: one row per distinct key, with the number of
    documents that have it.  A key is a string, or [null]. *)
Fixpoint tally {K} `{EqDecision K} (k : K) (rows : list (K * nat)) : list (K * nat) :=
  match rows with
  | [] => [(k, 1%nat)]
  | (k', n) :: rest =>
      if decide (k' = k) then (k', S n) :: rest else (k', n) :: tally k rest
  end.

Definition group_count {K} `{EqDecision K} (keys : list K) : list (K * nat) :=
  foldl (λ rows k, tally k rows) [] keys.

(** [{ $sort: { _id: 1 } }]: ascending in the binary order of strings. *)
Definition id_le (a b : string * nat) : Prop := String.leb a.1 b.1 = true.

#[global] Instance id_le_dec : RelDecision id_le :=
  λ a b, decide (String.leb a.1 b.1 = true).

Definition sort_by_id (rows : list (string * nat)) : list (string * nat) :=
  merge_sort id_le rows.

(** [Task.aggregate(pipeline)] runs the pipeline over the collection. *)
Definition Task_aggregate {A} (env : Env) (pipeline : list Task → A) : Js A :=
  λ w, if failing env TaskAggregate then (Thrown "MongoError", w)
       else (Normal (pipeline (map_to_list (tasks w)).*2), w).

(** The pipeline of [/overview]. *)
Definition overview_pipeline (uid : string) (docs : list Task)
    : list (option string * nat) :=
  let matched := filter (λ t, owner t = Some uid) docs in
  group_count (status <$> matched).

Definition overview (env : Env) (req : Request) : Js Response :=
  try_catch
    (req_user <- deref (user req) ;;
     data <- Task_aggregate env (overview_pipeline (User._id req_user)) ;;
     ret (json (JsonCounts data)))
    (λ _, ret (status_json 500 "Analytics error")).

(** The pipeline of [/trends]. *)
Definition trends_pipeline (uid : string) (sevenDaysAgo : Z) (docs : list Task)
    : list (string * nat) :=
  let matched := filter (λ t, owner t = Some uid ∧ (sevenDaysAgo ≤ createdAt t)%Z) docs in
  sort_by_id (group_count ((λ t, dateToString (createdAt t)) <$> matched)).

(** [const d = new Date(); d.setDate(d.getDate() - 7)]. *)
Definition sevenDaysAgo (env : Env) : Z :=
  Date_setDate (LocalTZA env) (Date_getDate (LocalTZA env) (now env) - 7) (now env).

Definition trends (env : Env) (req : Request) : Js Response :=
  let sevenDaysAgo := sevenDaysAgo env in
  try_catch
    (req_user <- deref (user req) ;;
     data <- Task_aggregate env (trends_pipeline (User._id req_user) sevenDaysAgo) ;;
     ret (json (JsonCreated data)))
    (λ _, ret (status_json 500 "Trend error")).

(** The protected endpoints, as the routers register them. *)
Definition put_share (env : Env) : Request → Js Response :=
  route (authMiddleware env) (share env).
Definition get_shared (env : Env) : Request → Js Response :=
  route (authMiddleware env) (shared env).
Definition get_overview (env : Env) : Request → Js Response :=
  route (authMiddleware env) (overview env).
Definition get_trends (env : Env) : Request → Js Response :=
  route (authMiddleware env) (trends env).

(* ================================================================== *)
(** * Creating, updating and deleting tasks *)
(* ================================================================== *)

(** The body the client sends when it creates or edits a task
    ([taskData] in the front end's [createTask] and [updateTask]).  A
    property that is left out is [None]; the status may also be sent as
    [null], which is [Some None]. *)
Record TaskBody : Type := mkTaskBody {
  body_title : option string;
  body_description : option string;
  body_status : option (option string);
  body_dueDate : option Z;
}.

(** [new Task(fields).save()] for a document that is not yet stored:
    the driver's fresh [_id] must be unused, the validators run, and
    both timestamps are set. *)
Definition Task_create (env : Env) (fresh : string) (t : Task) : Js Task :=
  λ w, if failing env TaskSave then (Thrown "MongoError", w)
       else if bool_decide (is_Some (tasks w !! fresh)) then (Thrown "MongoError", w)
       else if TaskSchema_validate t
       then let t' := mkTask (title t) (description t) (status t) (dueDate t) (owner t)
                             (sharedWith t) (attachments t) (now env) (now env) in
            (Normal t', mkWorld (users w) (<[fresh := t']> (tasks w)) (app_io w))
       else (Thrown "ValidationError", w).

(** [task.deleteOne()]. *)
Definition Task_delete (env : Env) (id : string) : Js unit :=
  λ w, if failing env TaskDelete then (Thrown "MongoError", w)
       else (Normal (), mkWorld (users w) (delete id (tasks w)) (app_io w)).

(** Modelled from the spec: the handler of [POST /api/tasks] (the first
    part of [routes/tasks.js]) is not among the sources.  The spec's data
    model has the owner set at creation to the creating user and the
    status taken from the request; the schema, which is a source,
    supplies the default [Pending] and the validators. *)
Definition create (env : Env) (fresh : string) (b : TaskBody) (req : Request)
    : Js Response :=
  try_catch
    (req_user <- deref (user req) ;;
     let doc := mkTask (body_title b) (body_description b)
                       (status_default (body_status b)) (body_dueDate b)
                       (Some (User._id req_user)) [] [] 0 0 in
     saved <- Task_create env fresh doc ;;
     ret (mkResponse 201 (JsonTask fresh saved)))
    (λ _, ret (status_json 500 "Error creating task")).

Definition apply_body (b : TaskBody) (t : Task) : Task :=
  mkTask (match body_title b with Some v => Some v | None => title t end)
         (match body_description b with Some v => Some v | None => description t end)
         (default (status t) (body_status b))
         (match body_dueDate b with Some v => Some v | None => dueDate t end)
         (owner t) (sharedWith t) (attachments t) (createdAt t) (updatedAt t).

(** Modelled from the spec: the handler of [PUT /api/tasks/:id] is not
    among the sources.  Per the spec only the owner may mutate a task,
    the owner itself is immutable, an identifier that does not resolve
    is a not-found client error, and the edited fields are those of
    [TaskBody]; the document is validated by [save]. *)
Definition update (env : Env) (b : TaskBody) (req : Request) : Js Response :=
  let id := params_id req in
  try_catch
    (found <- Task_findById env id ;;
     match found with
     | None => ret (status_json 404 "Task not found")
     | Some task =>
         task_owner <- deref (owner task) ;;
         req_user <- deref (user req) ;;
         if negb (String.eqb task_owner (User._id req_user))
         then ret (status_json 403 "Forbidden")
         else
           saved <- Task_save env id (apply_body b task) ;;
           ret (json (JsonTask id saved))
     end)
    (λ _, ret (status_json 500 "Error updating task")).

(** Modelled from the spec: the handler of [DELETE /api/tasks/:id] is
    not among the sources.  Per the spec only the owner may delete a
    task, and the task disappears from every list. *)
Definition remove (env : Env) (req : Request) : Js Response :=
  let id := params_id req in
  try_catch
    (found <- Task_findById env id ;;
     match found with
     | None => ret (status_json 404 "Task not found")
     | Some task =>
         task_owner <- deref (owner task) ;;
         req_user <- deref (user req) ;;
         if negb (String.eqb task_owner (User._id req_user))
         then ret (status_json 403 "Forbidden")
         else
           Task_delete env id ;;;
           ret (status_json 200 "Task deleted")
     end)
    (λ _, ret (status_json 500 "Error deleting task")).

(** The operations of the task API. *)
Inductive Operation : Type :=
| Create (fresh : string) (b : TaskBody)
| Update (b : TaskBody)
| Delete
| Share
| Shared
| Overview
| Trends.

Definition handler_of (op : Operation) (env : Env) : Request → Js Response :=
  match op with
  | Create fresh b => create env fresh b
  | Update b => update env b
  | Delete => remove env
  | Share => Wire.share env
  | Shared => shared env
  | Overview => overview env
  | Trends => trends env
  end.

(** One request to a protected endpoint, and the world it leaves. *)
Definition perform (op : Operation) (env : Env) (req : Request) (w : World) : World :=
  (route (authMiddleware env) (handler_of op env) req w).2.

(* ================================================================== *)
(** * [models/User.js] *)
(* ================================================================== *)

(** The part of [bcryptjs] that the model calls.  A result is [None]
    when the promise rejects. *)
Record Bcrypt : Type := mkBcrypt {
  bcrypt_genSalt : Z → option string;
  bcrypt_hash : string → string → option string;
  bcrypt_compare : string → string → bool;
}.

(** A user document in memory: its fields, and whether the [password]
    path counts as modified ([this.isModified('password')]). *)
Record UserDoc : Type := mkUserDoc {
  fields : User.t;
  isModified_password : bool;
}.

Definition set_password (p : string) (u : User.t) : User.t :=
  User.mk (User._id u) (User.username u) p.

(** [doc.password = p]: the assignment marks the path as modified. *)
Definition assign_password (p : string) (this : UserDoc) : UserDoc :=
  mkUserDoc (set_password p (fields this)) true.

(** [UserSchema.pre('save', ...)]: the hook hands on the document
    ([next()]), or an error ([next(err)]). *)
Definition UserSchema_pre_save (bcrypt : Bcrypt) (this : UserDoc) : completion User.t :=
  if negb (isModified_password this) then Normal (fields this)
  else
    match bcrypt_genSalt bcrypt 10 with
    | None => Thrown "bcrypt"
    | Some salt =>
        match bcrypt_hash bcrypt (User.password (fields this)) salt with
        | None => Thrown "bcrypt"
        | Some hashed => Normal (set_password hashed (fields this))
        end
    end.

(** The validators of [UserSchema]: [username] and [password] are
    [required], which the empty string does not satisfy.  (The [trim]
    setter has run when [username] was assigned.) *)
Definition UserSchema_validate (u : User.t) : bool :=
  negb (String.eqb (User.username u) "") && negb (String.eqb (User.password u) "").

(** The unique index on [username]: another document has the name. *)
Definition username_taken (u : User.t) (w : World) : bool :=
  bool_decide (map_Exists (λ id u', id ≠ User._id u ∧ User.username u' = User.username u)
                          (users w)).

(** [doc.save()]: the validators run first, then the pre-save hook,
    then the document is written under its [_id]; the store refuses a
    second document with the same [username].  After a save no path
    counts as modified. *)
Definition UserDoc_save (env : Env) (bcrypt : Bcrypt) (this : UserDoc) : Js UserDoc :=
  λ w, if negb (UserSchema_validate (fields this)) then (Thrown "ValidationError", w)
       else match UserSchema_pre_save bcrypt this with
            | Thrown e => (Thrown e, w)
            | Normal u =>
                if failing env UserSave then (Thrown "MongoError", w)
                else if username_taken u w then (Thrown "MongoServerError", w)
                else (Normal (mkUserDoc u false),
                      mkWorld (<[User._id u := u]> (users w)) (tasks w) (app_io w))
            end.

(** [UserSchema.methods.comparePassword]. *)
Definition comparePassword (bcrypt : Bcrypt) (this : User.t) (candidatePassword : string)
    : bool :=
  bcrypt_compare bcrypt candidatePassword (User.password this).

(* ================================================================== *)
(** * The front end: [TaskForm] and [TaskList] *)
(* ================================================================== *)

(** The built-ins of the browser that the components call:
    [String.prototype.trim], [String.prototype.toLowerCase], and
    [Date.parse] ([None] for [NaN]). *)
Record Browser : Type := mkBrowser {
  trim : string → string;
  toLowerCase : string → string;
  Date_parse : string → option Z;
}.

(** The state of the form's four inputs. *)
Record FormState : Type := mkFormState {
  form_title : string;
  form_description : string;
  form_status : string;
  form_dueDate : string;
}.

(** The [errs] object of [validate]. *)
Record FormErrors : Type := mkFormErrors {
  errs_title : option string;
  errs_status : option string;
  errs_dueDate : option string;
}.

(** JavaScript truthiness of a string. *)
Definition nonempty (s : string) : bool := negb (String.eqb s "").

Definition validate_errs (js : Browser) (f : FormState) : FormErrors :=
  mkFormErrors
    (if negb (nonempty (trim js (form_title f))) then Some "Title is required"%string
     else None)
    (if negb (nonempty (form_status f)) then Some "Status is required"%string else None)
    (if nonempty (form_dueDate f)
        && (if Date_parse js (form_dueDate f) is Some _ then false else true)
     then Some "Due date is invalid"%string else None).

(** [Object.keys(errs).length === 0]. *)
Definition no_errors (errs : FormErrors) : bool :=
  match errs_title errs, errs_status errs, errs_dueDate errs with
  | None, None, None => true
  | _, _, _ => false
  end.

(** [validate()]: the errors it puts into the state, and its result. *)
Definition validate (js : Browser) (f : FormState) : FormErrors * bool :=
  let errs := validate_errs js f in (errs, no_errors errs).

(** [handleSubmit]: the [taskData] handed to [onSave], if any.  The due
    date travels as an ISO string; it is kept here as the instant that
    string denotes. *)
Definition handleSubmit (js : Browser) (f : FormState) : option TaskBody :=
  if negb (validate js f).2 then None
  else Some (mkTaskBody
               (Some (trim js (form_title f)))
               (Some (trim js (form_description f)))
               (Some (Some (form_status f)))
               (if nonempty (form_dueDate f) then Date_parse js (form_dueDate f) else None)).

(** [String.prototype.includes]: [part] occurs in [text]. *)
Fixpoint String_includes (text part : string) : bool :=
  String.prefix part text
  || match text with
     | EmptyString => false
     | String _ rest => String_includes rest part
     end.

(** The callback of [tasks.filter] in [TaskList].  Reading
    [task.title.toLowerCase()] throws for a task without a title; the
    description is guarded. *)
Definition task_matches (js : Browser) (filterStatus searchTerm : string) (task : Task)
    : completion bool :=
  let matchesStatus :=
    String.eqb filterStatus "All"
    || match status task with
       | Some task_status => String.eqb task_status filterStatus
       | None => false
       end in
  match title task with
  | None => Thrown "TypeError"
  | Some task_title =>
      let matchesSearch :=
        String_includes (toLowerCase js task_title) (toLowerCase js searchTerm)
        || match description task with
           | Some d => nonempty d
                       && String_includes (toLowerCase js d) (toLowerCase js searchTerm)
           | None => false
           end in
      Normal (matchesStatus && matchesSearch)
  end.

(** [Array.prototype.filter] with a callback that may throw. *)
Fixpoint Array_filter {A} (callback : A → completion bool) (l : list A)
    : completion (list A) :=
  match l with
  | [] => Normal []
  | x :: rest =>
      match callback x with
      | Thrown e => Thrown e
      | Normal keep =>
          match Array_filter callback rest with
          | Thrown e => Thrown e
          | Normal kept => Normal (if keep then x :: kept else kept)
          end
      end
  end.

Definition filteredTasks (js : Browser) (tasks : list Task)
    (filterStatus searchTerm : string) : completion (list Task) :=
  Array_filter (task_matches js filterStatus searchTerm) tasks.

(* ================================================================== *)
(** * Vocabulary of the specification *)
(* ================================================================== *)

(** How often an identifier occurs in a shared-with array. *)
Fixpoint occurrences (x : string) (l : list string) : nat :=
  match l with
  | [] => 0
  | y :: r => (if String.eqb y x then 1 else 0) + occurrences x r
  end.

(** The status code of an answer. *)
Definition answered (r : completion Response) : option Z :=
  match r with
  | Normal response => Some (code response)
  | Thrown _ => None
  end.

(** A text contains another one. *)
Definition contains (text part : string) : Prop :=
  ∃ before after, text = before +:+ part +:+ after.

(** The callbacks a socket has registered for a user's topic. *)
Definition subscriptions (userId : string) (c : ClientSocket) : list nat :=
  snd <$> filter (λ l, l.1 = notify userId) (listeners c).

(** The documents of the collection, and how many of them satisfy a
    condition. *)
Definition documents (w : World) : list Task := (map_to_list (tasks w)).*2.

Definition count_where (P : Task → Prop) `{∀ t, Decision (P t)} (w : World) : nat :=
  length (filter P (documents w)).


(** A status the schema lets pass: [null], or one of the enumeration. *)
Definition status_allowed (v : option string) : Prop :=
  match v with
  | Some s => s ∈ TASK_STATUS
  | None => True
  end.

#[global] Instance status_allowed_dec (v : option string) : Decision (status_allowed v).
Proof. destruct v; simpl; apply _. Defined.

(** The invariant the schema keeps: a stored task has an owner, and its
    status is [null] or one of the enumeration. *)
Definition task_ok (t : Task) : Prop :=
  is_Some (owner t) ∧ status_allowed (status t).

#[global] Instance task_ok_dec (t : Task) : Decision (task_ok t).
Proof. unfold task_ok. apply _. Defined.


(** Day numbers whose year has four digits, 0000-01-01 to 9999-12-31:
    the days [dateToString] can render. *)
Definition four_digit_year (day : Z) : Prop := (-719528 ≤ day ≤ 2932896)%Z.

(** Every stored task was created on a day that [dateToString] can
    render. *)
Definition created_in_calendar (w : World) : Prop :=
  map_Forall (λ _ t, four_digit_year (Day (createdAt t))) (tasks w).

(** Rows in strictly ascending order of their keys. *)
Definition id_lt (a b : string * nat) : Prop := String.ltb a.1 b.1 = true.

(** A store call that does not fail. *)
Definition works (env : Env) (c : StoreCall) : Prop := failing env c = false.

(** The count an aggregation result gives for a key, if it has a row
    for it. *)
Fixpoint row_of {K} `{EqDecision K} (k : K) (rows : list (K * nat)) : option nat :=
  match rows with
  | [] => None
  | (k', n) :: rest => if decide (k' = k) then Some n else row_of k rest
  end.

(** How many of the keys are [k]. *)
Definition key_count {K} `{EqDecision K} (k : K) (keys : list K) : nat :=
  length (filter (λ x, x = k) keys).

(** Seven days, in milliseconds. *)
Definition sevenDays : Z := 7 * msPerDay.

(** By how much the zone's offset now differs from its offset at the
    same local reading seven days ago: zero, except when a change to or
    from daylight saving time lies in between. *)
Definition zone_shift (env : Env) : Z :=
  (LocalTZA env (now env) true
   - LocalTZA env (now env + LocalTZA env (now env) true - sevenDays) false)%Z.

(** Calendar dates in their order. *)
Definition ymd_lt (a b : Z * Z * Z) : Prop :=
  (a.1.1 < b.1.1 ∨ (a.1.1 = b.1.1 ∧ (a.1.2 < b.1.2 ∨ (a.1.2 = b.1.2 ∧ a.2 < b.2))))%Z.

(** Lexicographic composition of comparisons. *)
Definition then_compare (c rest : comparison) : comparison :=
  match c with
  | Eq => rest
  | _ => c
  end.


(** A character occurs in a string. *)
Fixpoint has_char (c : ascii) (s : string) : bool :=
  match s with
  | EmptyString => false
  | String c' rest => Ascii.eqb c' c || has_char c rest
  end.

(** The total of the counts of an aggregation result. *)
Definition total {K} (rows : list (K * nat)) : nat := sum_list rows.*2.

(** The fields of a task that sharing has no business with. *)
Definition same_content (a b : Task) : Prop :=
  title a = title b ∧ description a = description b ∧ status a = status b ∧
  dueDate a = dueDate b ∧ owner a = owner b ∧ attachments a = attachments b ∧
  createdAt a = createdAt b.

(* ================================================================== *)
(** * A small scenario *)
(* ================================================================== *)

(** Three users; Alice owns one task; Bob and Carol each have a
    browser tab listening for their own notifications, and Dave's tab
    is connected without having subscribed.  The identifiers are written
    as Mongo prints them: 24 hexadecimal digits. *)
Definition alice_id : string := "a11ce0000000000000000001".
Definition bob_id : string := "b0b000000000000000000002".
Definition carol_id : string := "ca2010000000000000000003".
Definition dave_id : string := "da7e00000000000000000004".
Definition ghost_id : string := "dead00000000000000000005".
Definition report_id : string := "7a5c00000000000000000001".
Definition task2_id : string := "7a5c00000000000000000002".
Definition task3_id : string := "7a5c00000000000000000003".
Definition task4_id : string := "7a5c00000000000000000004".
Definition unknown_id : string := "7a5c00000000000000000009".

Definition alice : User.t := User.mk alice_id "alice" "hash-a".
Definition bob : User.t := User.mk bob_id "bob" "hash-b".
Definition carol : User.t := User.mk carol_id "carol" "hash-c".

Definition report : Task :=
  mkTask (Some "Write report"%string) None (Some "Pending"%string) None (Some alice_id)
         [] [] 1762000000000 1762000000000.

Definition tab : ClientSocket := mkClient true [] [] [].

Definition demo_io : IoServer :=
  mkIo [listenForNotifications bob_id 7 tab; listenForNotifications carol_id 8 tab; tab] [].

Definition demo_users : gmap string User.t :=
  <[alice_id := alice]> (<[bob_id := bob]> (<[carol_id := carol]> ∅)).

Definition demo_world : World :=
  mkWorld demo_users (<[report_id := report]> ∅) (Some demo_io).

(** The same application started without the socket server. *)
Definition demo_world_no_io : World :=
  mkWorld demo_users (<[report_id := report]> ∅) None.

Definition demo_jwt (token : string) : option JwtPayload :=
  if String.eqb token "token-alice" then Some (mkPayloadJwt (Some alice_id))
  else if String.eqb token "token-bob" then Some (mkPayloadJwt (Some bob_id))
  else if String.eqb token "token-ghost" then Some (mkPayloadJwt (Some ghost_id))
  else None.

(** A server whose zone is five hours ahead of UTC all year. *)
Definition demo_env : Env :=
  mkEnv 1762128000000 (λ _ _, 18000000%Z) (λ _, false) demo_jwt.

(** Alice shares her task with Bob; Bob tries the same. *)
Definition alice_shares : Request :=
  mkRequest (Some "Bearer token-alice"%string) report_id bob_id (Some alice).
Definition bob_shares : Request :=
  mkRequest (Some "Bearer token-bob"%string) report_id carol_id (Some bob).
Definition alice_shares_unknown : Request :=
  mkRequest (Some "Bearer token-alice"%string) unknown_id bob_id (Some alice).

(** Alice shares her task with Bob again, and writes the digits of his
    identifier in upper case. *)
Definition alice_shares_upper : Request :=
  mkRequest (Some "Bearer token-alice"%string) report_id "B0B000000000000000000002"
            (Some alice).

(** The world in which the task is already shared with Bob. *)
Definition report_shared : Task := set_sharedWith [bob_id] report.

Definition demo_world_shared : World :=
  mkWorld demo_users (<[report_id := report_shared]> ∅) (Some demo_io).

(** The notification about Alice's task. *)
Definition report_notification : Payload :=
  mkPayload ("A task titled " +:+ dquote +:+ "Write report" +:+ dquote
               +:+ " was shared with you.").

(** Bob creates a task: without naming a status, and with the status
    sent as [null]. *)
Definition bob_creates : Request :=
  mkRequest (Some "Bearer token-bob"%string) "" "" (Some bob).

Definition call_client : TaskBody :=
  mkTaskBody (Some "Call client"%string) None None None.


(** A board for the analytics: Alice has two pending tasks from the
    last two days and a completed one that is two weeks old; Bob has a
    task in progress. *)
Definition board : World :=
  mkWorld demo_users
    (<[report_id := mkTask (Some "Write report"%string) None (Some "Pending"%string) None
                             (Some alice_id) [] [] 1761991200000 1761991200000]>
    (<[task2_id := mkTask (Some "Book room"%string) None (Some "Pending"%string) None
                             (Some alice_id) [] [] 1762113600000 1762113600000]>
    (<[task3_id := mkTask (Some "Plan sprint"%string) None (Some "Completed"%string) None
                             (Some alice_id) [] [] 1760918400000 1761000000000]>
    (<[task4_id := mkTask (Some "Fix login"%string) None (Some "In Progress"%string) None
                             (Some bob_id) [] [] 1762100000000 1762100000000]> ∅))))
    None.

(** A server on United States Eastern time in 2026: daylight saving
    time (four hours behind UTC instead of five) from 8 March, 07:00 UTC,
    to 1 November, 06:00 UTC.  A local reading that occurs twice is taken
    as the earlier instant, one that is skipped is read with the offset
    before the change. *)
Definition new_york (t : Z) (isUTC : bool) : Z :=
  if isUTC
  then (if bool_decide (1772953200000 ≤ t < 1793512800000) then -14400000 else -18000000)%Z
  else (if bool_decide (1772938800000 ≤ t < 1793498400000) then -14400000 else -18000000)%Z.

(** The query arrives on 3 November 2026 at 12:00 UTC, two days after
    the clocks went back; Alice has one task, created on 27 October at
    11:30 UTC: seven days and half an hour earlier. *)
Definition autumn_env : Env := mkEnv 1793707200000 new_york (λ _, false) demo_jwt.

Definition autumn_board : World :=
  mkWorld demo_users
    (<[report_id := mkTask (Some "Write report"%string) None (Some "Pending"%string) None
                             (Some alice_id) [] [] 1793100600000 1793100600000]> ∅)
    None.

(** The query arrives on 10 March 2026 at 12:00 UTC, two days after
    the clocks went forward; Alice has one task, created on 3 March at
    12:30 UTC: half an hour less than seven days earlier. *)
Definition spring_env : Env := mkEnv 1773144000000 new_york (λ _, false) demo_jwt.

Definition spring_board : World :=
  mkWorld demo_users
    (<[report_id := mkTask (Some "Write report"%string) None (Some "Pending"%string) None
                             (Some alice_id) [] [] 1772541000000 1772541000000]> ∅)
    None.

Definition alice_asks : Request :=
  mkRequest (Some "Bearer token-alice"%string) "" "" (Some alice).

(** Carol asks for the tasks shared with her; Bob does. *)
Definition bob_asks : Request :=
  mkRequest (Some "Bearer token-bob"%string) "" "" (Some bob).

(** A stand-in for [bcryptjs]: the hash is the salt, a separator and
    the password. *)
Definition demo_bcrypt : Bcrypt :=
  mkBcrypt (λ _, Some "salt"%string)
           (λ p salt, Some (salt +:+ "$" +:+ p))
           (λ p hashed, String.eqb hashed ("salt$" +:+ p)).

(** Dave's document before the registration fills in its password. *)
Definition new_user : UserDoc := mkUserDoc (User.mk dave_id "dave" "") false.

(** A browser for plain ASCII text without surrounding blanks: [trim]
    and [toLowerCase] leave such text alone, and dates are read as
    nothing but the one date of the scenario. *)
Definition demo_browser : Browser :=
  mkBrowser (λ s, s) (λ s, s)
            (λ s, if String.eqb s "2025-11-10" then Some 1762732800000%Z else None).

Definition demo_form : FormState :=
  mkFormState "Write report" "" "Pending" "2025-11-10".

(* ================================================================== *)
(** * Basic facts *)
(* ================================================================== *)

Ltac js_unfold :=
  unfold route, try_catch, bind, ret, throw, deref, Task_findById, User_findById,
    Task_save, Task_create, Task_delete, Task_aggregate, app_emit, works in *.

Lemma includes_true_iff (l : list string) (x : string) :
  includes l x = true ↔ x ∈ l.
Proof.
  induction l as [|y r IH]; simpl.
  - split; [discriminate | intros H; inversion H].
  - rewrite orb_true_iff, IH, String.eqb_eq, elem_of_cons.
    split; (intros [->|?]; [by left|by right]).
Qed.

Lemma includes_false_iff (l : list string) (x : string) :
  includes l x = false ↔ x ∉ l.
Proof.
  rewrite <- includes_true_iff. destruct (includes l x); naive_solver.
Qed.

Lemma includes_app (l1 l2 : list string) (x : string) :
  includes (l1 ++ l2) x = includes l1 x || includes l2 x.
Proof.
  induction l1 as [|y r IH]; simpl; [done|]. by rewrite IH, orb_assoc.
Qed.

Lemma occurrences_app (x : string) (l1 l2 : list string) :
  occurrences x (l1 ++ l2) = occurrences x l1 + occurrences x l2.
Proof.
  induction l1 as [|y r IH]; simpl; [done|]. rewrite IH. lia.
Qed.

Lemma occurrences_includes (x : string) (l : list string) :
  includes l x = negb (Nat.eqb (occurrences x l) 0).
Proof.
  induction l as [|y r IH]; simpl; [done|].
  rewrite IH. destruct (String.eqb y x); simpl; [done|done].
Qed.

Lemma occurrences_pushed_absent (x : string) (l : list string) :
  includes l x = false → occurrences x (l ++ [x]) = 1.
Proof.
  intros H. rewrite occurrences_app. simpl. rewrite String.eqb_refl.
  rewrite occurrences_includes in H.
  destruct (Nat.eqb_spec (occurrences x l) 0); simpl in *; [lia|done].
Qed.

Lemma occurrences_present_once (x : string) (l : list string) :
  includes l x = true → occurrences x l ≤ 1 → occurrences x l = 1.
Proof.
  rewrite occurrences_includes.
  destruct (Nat.eqb_spec (occurrences x l) 0); simpl; [done|lia].
Qed.

Lemma validate_set_sharedWith (l : list string) (t : Task) :
  TaskSchema_validate (set_sharedWith l t) = TaskSchema_validate t.
Proof. done. Qed.

(** The runs of the share handler, case by case. *)
Section share_runs.
Context (env : Env) (req : Request) (w : World) (u : User.t) (t : Task).
Hypothesis Huser : user req = Some u.
Hypothesis Hfound : tasks w !! params_id req = Some t.
Hypothesis Hfind : works env TaskFindById.

Let id := params_id req.
Let target := body_userIdToShare req.
Let pushed := set_updatedAt (now env) (set_sharedWith (sharedWith t ++ [target]) t).

Lemma share_run_forbidden (o : string) :
  owner t = Some o → o ≠ User._id u →
  share env req w = (Normal (status_json 403 "Forbidden"), w).
Proof.
  intros Ho Hne. unfold share. js_unfold.
  rewrite Hfind, Hfound. simpl. rewrite Ho. simpl. rewrite Huser. simpl.
  apply String.eqb_neq in Hne. by rewrite Hne.
Qed.

Hypothesis Howner : owner t = Some (User._id u).

Lemma share_run_present :
  includes (sharedWith t) target = true →
  share env req w = (Normal (json (JsonTask id t)), w).
Proof.
  intros Hin. unfold share. js_unfold.
  rewrite Hfind, Hfound. simpl. rewrite Howner. simpl. rewrite Huser. simpl.
  rewrite String.eqb_refl. simpl.
  fold target. by rewrite Hin.
Qed.

Hypothesis Habsent : includes (sharedWith t) target = false.
Hypothesis Hvalid : TaskSchema_validate t = true.
Hypothesis Hsave : works env TaskSave.

Lemma share_run_added (srv : IoServer) :
  app_io w = Some srv →
  share env req w =
    (Normal (json (JsonTask id pushed)),
     mkWorld (users w) (<[id := pushed]> (tasks w))
             (Some (io_emit (notify target) (mkPayload (share_message pushed)) srv))).
Proof.
  intros Hio. unfold share. js_unfold.
  rewrite Hfind, Hfound. simpl. rewrite Howner. simpl. rewrite Huser. simpl.
  rewrite String.eqb_refl. simpl.
  fold target. rewrite Habsent. simpl.
  rewrite Hsave, validate_set_sharedWith, Hvalid. simpl. rewrite Hio. reflexivity.
Qed.

Lemma share_run_emit_throws :
  app_io w = None →
  share env req w =
    (Normal (status_json 500 "Error sharing task"),
     mkWorld (users w) (<[id := pushed]> (tasks w)) None).
Proof.
  intros Hio. unfold share. js_unfold.
  rewrite Hfind, Hfound. simpl. rewrite Howner. simpl. rewrite Huser. simpl.
  rewrite String.eqb_refl. simpl.
  fold target. rewrite Habsent. simpl.
  rewrite Hsave, validate_set_sharedWith, Hvalid. simpl. rewrite Hio. reflexivity.
Qed.

Lemma share_run_writes :
  ∃ r io', share env req w = (r, mkWorld (users w) (<[id := pushed]> (tasks w)) io').
Proof.
  destruct (app_io w) as [srv|] eqn:Hio.
  - eexists _, _. by apply share_run_added.
  - eexists _, _. by apply share_run_emit_throws.
Qed.
End share_runs.

(** On a request that writes both identifiers as the store prints
    them, casting changes nothing and the two handlers agree. *)
Lemma wire_share_canonical (env : Env) (req : Request) (w : World) :
  castObjectId (params_id req) = Some (params_id req) →
  castObjectId (body_userIdToShare req) = Some (body_userIdToShare req) →
  Wire.share env req w = share env req w.
Proof.
  intros Hid Htarget. unfold Wire.share, share, Wire.cast. rewrite Hid. js_unfold.
  destruct (failing env TaskFindById); [done|].
  destruct (tasks w !! params_id req) as [t|]; simpl; [|done].
  destruct (owner t) as [o|]; simpl; [|done].
  destruct (user req) as [u|]; simpl; [|done].
  destruct (negb (String.eqb o (User._id u))); simpl; [done|].
  destruct (negb (includes (sharedWith t) (body_userIdToShare req))); simpl; [|done].
  by rewrite Htarget.
Qed.

(** What a share call can do to the store: nothing, or rewrite the
    addressed task with the cast target appended, which happens only
    when the text of the request was not found in the array. *)
Lemma wire_share_store_outcome (env : Env) (req : Request) (w : World) :
  let w' := (Wire.share env req w).2 in
  users w' = users w ∧
  (tasks w' = tasks w ∨
   ∃ oid target t,
     castObjectId (params_id req) = Some oid ∧
     castObjectId (body_userIdToShare req) = Some target ∧
     tasks w !! oid = Some t ∧
     includes (sharedWith t) (body_userIdToShare req) = false ∧
     tasks w' = <[oid := set_updatedAt (now env)
                           (set_sharedWith (sharedWith t ++ [target]) t)]> (tasks w)).
Proof.
  unfold Wire.share, Wire.cast.
  destruct (castObjectId (params_id req)) as [oid|] eqn:Hid; js_unfold;
    [|by split; [|left]].
  destruct (failing env TaskFindById); [by split; [|left]|].
  destruct (tasks w !! oid) as [t|] eqn:Ht; simpl; [|by split; [|left]].
  destruct (owner t) as [o|]; simpl; [|by split; [|left]].
  destruct (user req) as [u|]; simpl; [|by split; [|left]].
  destruct (negb (String.eqb o (User._id u))); simpl; [by split; [|left]|].
  destruct (includes (sharedWith t) (body_userIdToShare req)) eqn:Hin; simpl;
    [by split; [|left]|].
  destruct (castObjectId (body_userIdToShare req)) as [target|] eqn:Htarget; simpl;
    [|by split; [|left]].
  destruct (failing env TaskSave); [by split; [|left]|].
  destruct (TaskSchema_validate _); simpl; [|by split; [|left]].
  destruct (app_io w); simpl; (split; [done|]); right; by exists oid, target, t.
Qed.

Lemma occurrences_NoDup (x : string) (l : list string) :
  NoDup l → occurrences x l ≤ 1.
Proof.
  induction 1 as [|y l Hnotin Hnd IH]; simpl; [lia|].
  destruct (String.eqb_spec y x) as [->|Hne]; [|lia].
  apply includes_false_iff in Hnotin. rewrite occurrences_includes in Hnotin.
  destruct (Nat.eqb_spec (occurrences x l) 0); simpl in *; [lia|done].
Qed.

(** Sharing never makes a shared-with array with duplicates out of one
    without: whatever the outcome of the call, the array of every stored
    task stays duplicate-free. *)
Lemma share_keeps_no_duplicates (env : Env) (req : Request) (w : World) :
  map_Forall (λ _ t, NoDup (sharedWith t)) (tasks w) →
  map_Forall (λ _ t, NoDup (sharedWith t)) (tasks (share env req w).2).
Proof.
  intros Hnd. unfold share. js_unfold.
  destruct (failing env TaskFindById); [done|].
  destruct (tasks w !! params_id req) as [t|] eqn:Ht; simpl; [|done].
  destruct (owner t) as [o|]; simpl; [|done].
  destruct (user req) as [u|]; simpl; [|done].
  destruct (negb (String.eqb o (User._id u))); simpl; [done|].
  destruct (includes (sharedWith t) (body_userIdToShare req)) eqn:Hin; simpl; [done|].
  destruct (failing env TaskSave); [done|].
  destruct (TaskSchema_validate _); simpl; [|done].
  assert (Hpushed : NoDup (sharedWith t ++ [body_userIdToShare req])).
  { apply NoDup_app. split; [by apply (Hnd _ _ Ht)|]. split; [|apply NoDup_singleton].
    intros x Hx Hx'. apply list_elem_of_singleton in Hx' as ->.
    by apply includes_false_iff in Hin. }
  destruct (app_io w); simpl; by apply map_Forall_insert_2.
Qed.

Lemma share_run_unresolved (env : Env) (req : Request) (w : World) :
  tasks w !! params_id req = None →
  share env req w = (Normal (status_json 500 "Error sharing task"), w).
Proof.
  intros Hnone. unfold share. js_unfold.
  destruct (failing env TaskFindById); [done|]. by rewrite Hnone.
Qed.

Lemma share_run_store_down (env : Env) (req : Request) (w : World) :
  failing env TaskFindById = true →
  share env req w = (Normal (status_json 500 "Error sharing task"), w).
Proof. intros Hdown. unfold share. js_unfold. by rewrite Hdown. Qed.

Lemma validate_title (t : Task) :
  TaskSchema_validate t = true → ∃ ttl, title t = Some ttl.
Proof.
  unfold TaskSchema_validate. destruct (title t) as [ttl|]; [eauto|done].
Qed.

Lemma share_message_contains (t : Task) (ttl : string) :
  title t = Some ttl → contains (share_message t) ttl.
Proof.
  intros Ht. exists ("A task titled " +:+ dquote), (dquote +:+ " was shared with you.").
  unfold share_message. rewrite Ht. done.
Qed.

Lemma invoked_subscriptions (userId : string) (p : Payload) (c : ClientSocket) :
  invoked (notify userId) p (listeners c) = (λ cb, (cb, p)) <$> subscriptions userId c.
Proof. unfold invoked, subscriptions. by rewrite <- list_fmap_compose. Qed.

Lemma notify_inj (a b : string) : notify a = notify b → a = b.
Proof. unfold notify. simpl. intros H. by simplify_eq. Qed.

Lemma subscriptions_other_topics (userId : string) (c : ClientSocket) :
  (∀ l, l ∈ listeners c → ∃ other, l.1 = notify other ∧ other ≠ userId) →
  subscriptions userId c = [].
Proof.
  intros Hall. unfold subscriptions.
  induction (listeners c) as [|l ls IH]; [done|].
  rewrite filter_cons. destruct (decide (l.1 = notify userId)) as [Heq|Hne].
  - destruct (Hall l) as (other & Hl & Hne); [by left|].
    rewrite Hl in Heq. by apply notify_inj in Heq.
  - apply IH. intros l' Hl'. apply Hall. by right.
Qed.

Lemma subscriptions_listen (userId other : string) (cb : nat) (c : ClientSocket) :
  subscriptions userId (listenForNotifications other cb c) =
  subscriptions userId c ++ (if decide (other = userId) then [cb] else []).
Proof.
  unfold subscriptions, listenForNotifications, socket_on. simpl.
  rewrite filter_app, fmap_app. f_equal.
  rewrite filter_cons, filter_nil. simpl.
  destruct (decide (other = userId)) as [->|Hne].
  - by rewrite decide_True.
  - rewrite decide_False; [done|]. intros H. by apply notify_inj in H.
Qed.

(* ================================================================== *)
(** * Sharing *)
(* ================================================================== *)

(** With the identifiers written as the store prints them, sharing is
    idempotent on the shared-with set.  When the owner shares a (valid,
    stored) task with a user twice, and the store answers, the target
    occurs exactly once in the task's shared-with array afterwards; the
    second call answers 200 with the task and leaves the whole world as
    the first call left it.  (The array is taken to hold the target at
    most once beforehand.) *)
Lemma share_twice_shares_once (env1 env2 : Env) (req : Request) (w : World)
    (u : User.t) (t : Task) :
  user req = Some u →
  tasks w !! params_id req = Some t →
  owner t = Some (User._id u) →
  TaskSchema_validate t = true →
  works env1 TaskFindById → works env1 TaskSave → works env2 TaskFindById →
  occurrences (body_userIdToShare req) (sharedWith t) ≤ 1 →
  ∃ r1 w1 t2,
    share env1 req w = (r1, w1) ∧
    share env2 req w1 = (Normal (json (JsonTask (params_id req) t2)), w1) ∧
    tasks w1 !! params_id req = Some t2 ∧
    occurrences (body_userIdToShare req) (sharedWith t2) = 1.
Proof.
  intros Huser Hfound Howner Hvalid Hfind1 Hsave1 Hfind2 Hocc.
  destruct (includes (sharedWith t) (body_userIdToShare req)) eqn:Hin.
  - exists (Normal (json (JsonTask (params_id req) t))), w, t.
    repeat split.
    + by apply (share_run_present env1 req w u t).
    + by apply (share_run_present env2 req w u t).
    + done.
    + by apply occurrences_present_once.
  - destruct (share_run_writes env1 req w u t) as (r1 & io' & Hrun); try done.
    eexists r1, _,
      (set_updatedAt (now env1)
         (set_sharedWith (sharedWith t ++ [body_userIdToShare req]) t)).
    split; [exact Hrun|].
    repeat split.
    + apply (share_run_present env2 req _ u); simpl; try done.
      * by rewrite lookup_insert_eq.
      * apply includes_true_iff, elem_of_app. right. by left.
    + simpl. by rewrite lookup_insert_eq.
    + simpl. by apply occurrences_pushed_absent.
Qed.

(** C1.  Sharing twice can store the target twice.  [includes] looks
    for the text of the request among the stored identifiers, while
    [push] stores the ObjectId that text is cast to.  When the owner
    names the target by the digits of its identifier in upper case, the
    text is not found, before or after the first call: both calls answer
    200, and afterwards the target's identifier is in the shared-with
    array twice. *)
Theorem share_twice_in_upper_case_stores_twice :
  let once := Wire.share demo_env alice_shares_upper demo_world in
  let twice := Wire.share demo_env alice_shares_upper once.2 in
  body_userIdToShare alice_shares_upper = "B0B000000000000000000002"%string ∧
  castObjectId (body_userIdToShare alice_shares_upper) = Some bob_id ∧
  answered once.1 = Some 200%Z ∧
  sharedWith <$> tasks once.2 !! report_id = Some ["b0b000000000000000000002"%string] ∧
  answered twice.1 = Some 200%Z ∧
  sharedWith <$> tasks twice.2 !! report_id
    = Some ["b0b000000000000000000002"; "b0b000000000000000000002"]%string ∧
  occurrences bob_id <$> (sharedWith <$> tasks twice.2 !! report_id) = Some 2.
Proof. repeat split; vm_compute; reflexivity. Qed.

(** C2.  A requester who is not the task's owner gets 403 Forbidden,
    and the call changes nothing: the world after it, the task's
    shared-with array included, is the world before it. *)
Theorem share_by_other_user_forbidden (env : Env) (req : Request) (w : World)
    (u : User.t) (t : Task) (o : string) :
  user req = Some u →
  tasks w !! params_id req = Some t →
  owner t = Some o →
  o ≠ User._id u →
  works env TaskFindById →
  ∃ w',
    share env req w = (Normal (status_json 403 "Forbidden"), w') ∧
    w' = w ∧
    sharedWith <$> tasks w' !! params_id req = Some (sharedWith t).
Proof.
  intros Huser Hfound Howner Hne Hfind. exists w. split; [|split; [done|]].
  - by apply (share_run_forbidden env req w u t Huser Hfound Hfind o).
  - by rewrite Hfound.
Qed.

Lemma share_by_other_user_forbidden_witness :
  ∃ w',
    share demo_env bob_shares demo_world = (Normal (status_json 403 "Forbidden"), w') ∧
    w' = demo_world ∧
    sharedWith <$> tasks w' !! report_id = Some [].
Proof.
  apply (share_by_other_user_forbidden demo_env bob_shares demo_world bob report alice_id);
    first [reflexivity | discriminate].
Defined.

(** C3.  What the handler does with an identifier that resolves to no
    task: [findById] gives [null], reading [task.owner] throws, and the
    catch-all answers 500 with the message it also uses when the store
    itself fails.  No not-found response exists. *)
Theorem share_unknown_task_answers_500 :
  tasks demo_world !! params_id alice_shares_unknown = None ∧
  share demo_env alice_shares_unknown demo_world
    = (Normal (status_json 500 "Error sharing task"), demo_world) ∧
  share (mkEnv 0 (λ _ _, 0%Z) (λ _, true) demo_jwt) alice_shares demo_world
    = (Normal (status_json 500 "Error sharing task"), demo_world).
Proof.
  split; [reflexivity|]. split.
  - by apply share_run_unresolved.
  - by apply share_run_store_down.
Qed.

(** With the identifiers written as the store prints them: when the
    owner shares a stored, valid task and the store and the socket
    server are there, the call answers 200 and: if the target was not in
    the shared-with array, exactly one event is emitted, under the
    target's event name, with a message that contains the task's title;
    if the target was already there, nothing is emitted. *)
Lemma share_notifies_on_addition_only (env : Env) (req : Request) (w : World)
    (u : User.t) (t : Task) (srv : IoServer) :
  user req = Some u →
  tasks w !! params_id req = Some t →
  owner t = Some (User._id u) →
  TaskSchema_validate t = true →
  works env TaskFindById → works env TaskSave →
  app_io w = Some srv →
  ∃ r w' srv',
    share env req w = (Normal r, w') ∧ code r = 200%Z ∧ app_io w' = Some srv' ∧
    if includes (sharedWith t) (body_userIdToShare req)
    then emitted srv' = emitted srv
    else ∃ ttl msg,
      title t = Some ttl ∧ contains msg ttl ∧
      emitted srv' = emitted srv ++ [(notify (body_userIdToShare req), mkPayload msg)].
Proof.
  intros Huser Hfound Howner Hvalid Hfind Hsave Hio.
  destruct (includes (sharedWith t) (body_userIdToShare req)) eqn:Hin.
  - exists (json (JsonTask (params_id req) t)), w, srv. repeat split; try done.
    by apply (share_run_present env req w u t).
  - eexists _, _, _. split; [by apply (share_run_added env req w u t)|].
    repeat split.
    destruct (validate_title t Hvalid) as [ttl Httl].
    exists ttl. eexists. split; [done|]. split; [|reflexivity].
    by apply share_message_contains.
Qed.

(** C4.  A target that is already in the shared-with array can be
    notified again.  The first share of Alice's task with Bob emits one
    event, named by Bob's identifier, whose message carries the title.
    With Bob in the array, a share that names him as the store prints
    his identifier emits nothing; but a share that writes the digits of
    the identifier in upper case does not find the text in the array:
    it answers 200, appends Bob's identifier once more and emits another
    event, which is named by the text of the request, not by Bob's
    identifier.  The defect is the one of C1. *)
Theorem share_again_in_upper_case_notifies_again :
  emitted <$> app_io (Wire.share demo_env alice_shares demo_world).2
    = Some [("notify:b0b000000000000000000002"%string, report_notification)] ∧
  sharedWith report_shared = [bob_id] ∧
  emitted <$> app_io (Wire.share demo_env alice_shares demo_world_shared).2 = Some [] ∧
  castObjectId (body_userIdToShare alice_shares_upper) = Some bob_id ∧
  answered (Wire.share demo_env alice_shares_upper demo_world_shared).1 = Some 200%Z ∧
  sharedWith <$> tasks (Wire.share demo_env alice_shares_upper demo_world_shared).2 !! report_id
    = Some ["b0b000000000000000000002"; "b0b000000000000000000002"]%string ∧
  emitted <$> app_io (Wire.share demo_env alice_shares_upper demo_world_shared).2
    = Some [("notify:B0B000000000000000000002"%string, report_notification)] ∧
  message report_notification
    = ("A task titled " +:+ dquote +:+ "Write report" +:+ dquote +:+ " was shared with you.")
  ∧ title report = Some "Write report"%string.
Proof. repeat split; vm_compute; reflexivity. Qed.

(* ================================================================== *)
(** * Delivery of the notification *)
(* ================================================================== *)

Lemma io_emit_socket (ev : string) (p : Payload) (srv : IoServer) (i : nat)
    (c : ClientSocket) :
  sockets srv !! i = Some c →
  sockets (io_emit ev p srv) !! i = Some (socket_receive ev p c).
Proof. intros Hc. unfold io_emit. simpl. by rewrite list_lookup_fmap, Hc. Qed.

Lemma socket_receive_calls (userId : string) (p : Payload) (c : ClientSocket) :
  calls (socket_receive (notify userId) p c) =
  calls c ++ (if connected c then (λ cb, (cb, p)) <$> subscriptions userId c else []).
Proof.
  unfold socket_receive. destruct (connected c); simpl.
  - by rewrite invoked_subscriptions.
  - by rewrite app_nil_r.
Qed.

(** With the identifiers written as the store prints them, the share
    event travels under the event name made from the target's
    identifier, and a socket's callbacks run accordingly.  After a share
    that adds the target, every socket known to the server at emit time
    has had each callback it registered for the target's topic called
    once with the event: a connected socket with one such subscription
    logs exactly one call; a socket with no subscription for the target
    (none at all, or only for other users), or one that is not
    connected, logs none.  Nothing is kept for later: subscribing after
    the emit, to any topic, adds no call. *)
Lemma share_event_reaches_target_subscribers (env : Env) (req : Request)
    (w : World) (u : User.t) (t : Task) (srv : IoServer) :
  user req = Some u →
  tasks w !! params_id req = Some t →
  owner t = Some (User._id u) →
  TaskSchema_validate t = true →
  works env TaskFindById → works env TaskSave →
  app_io w = Some srv →
  includes (sharedWith t) (body_userIdToShare req) = false →
  ∃ srv' p,
    app_io (share env req w).2 = Some srv' ∧
    emitted srv' = emitted srv ++ [(notify (body_userIdToShare req), p)] ∧
    length (sockets srv') = length (sockets srv) ∧
    ∀ i c, sockets srv !! i = Some c →
      ∃ c', sockets srv' !! i = Some c' ∧
        (connected c = true →
           calls c' = calls c ++ ((λ cb, (cb, p)) <$> subscriptions (body_userIdToShare req) c)) ∧
        (connected c = true → ∀ cb,
           subscriptions (body_userIdToShare req) c = [cb] → calls c' = calls c ++ [(cb, p)]) ∧
        (subscriptions (body_userIdToShare req) c = [] → calls c' = calls c) ∧
        ((∀ l, l ∈ listeners c → ∃ other, l.1 = notify other ∧ other ≠ body_userIdToShare req) →
           calls c' = calls c) ∧
        (connected c = false → calls c' = calls c) ∧
        (∀ other cb, calls (listenForNotifications other cb c') = calls c').
Proof.
  intros Huser Hfound Howner Hvalid Hfind Hsave Hio Habsent.
  rewrite (share_run_added env req w u t Huser Hfound Hfind Howner Habsent Hvalid Hsave srv Hio).
  simpl. eexists _, _. split; [reflexivity|]. split; [reflexivity|].
  split; [apply length_fmap|].
  intros i c Hc. eexists. split; [by apply io_emit_socket|].
  rewrite socket_receive_calls.
  repeat split.
  - by intros ->.
  - by intros -> cb ->.
  - intros ->. simpl. by destruct (connected c); rewrite app_nil_r.
  - intros Hall. rewrite (subscriptions_other_topics _ c Hall). simpl.
    by destruct (connected c); rewrite app_nil_r.
  - intros ->. by rewrite app_nil_r.
Qed.

(** C5.  The event of a share does not always reach the target's
    subscribers, and it is not sent to them only.  Bob's tab has
    subscribed with [listenForNotifications] under his identifier,
    Carol's under hers, a third tab not at all.  [io.emit] is a
    broadcast: the packet arrives at all three connections, and the
    event name alone decides whose callback runs.  When Alice names Bob
    as the store prints his identifier, the callback of Bob's tab is
    called once and no other.  When she writes the digits in upper case,
    Bob is added to the shared-with array all the same, but the event is
    named by the text of the request: no callback runs in any tab, and
    Bob's subscriber gets nothing.  The defect is the one of C1. *)
Theorem share_in_upper_case_misses_the_subscriber :
  sockets demo_io
    = [listenForNotifications bob_id 7 tab; listenForNotifications carol_id 8 tab; tab] ∧
  sockets <$> app_io (Wire.share demo_env alice_shares demo_world).2
    = Some [ mkClient true [("notify:b0b000000000000000000002"%string, 7)]
                      [(7, report_notification)]
                      [("notify:b0b000000000000000000002"%string, report_notification)];
             mkClient true [("notify:ca2010000000000000000003"%string, 8)]
                      []
                      [("notify:b0b000000000000000000002"%string, report_notification)];
             mkClient true [] []
                      [("notify:b0b000000000000000000002"%string, report_notification)] ] ∧
  castObjectId (body_userIdToShare alice_shares_upper) = Some bob_id ∧
  sharedWith <$> tasks (Wire.share demo_env alice_shares_upper demo_world).2 !! report_id
    = Some [bob_id] ∧
  sockets <$> app_io (Wire.share demo_env alice_shares_upper demo_world).2
    = Some [ mkClient true [("notify:b0b000000000000000000002"%string, 7)]
                      []
                      [("notify:B0B000000000000000000002"%string, report_notification)];
             mkClient true [("notify:ca2010000000000000000003"%string, 8)]
                      []
                      [("notify:B0B000000000000000000002"%string, report_notification)];
             mkClient true [] []
                      [("notify:B0B000000000000000000002"%string, report_notification)] ].
Proof. repeat split; vm_compute; reflexivity. Qed.

(** In the scenario: Bob's tab logs one call, Carol's and Dave's none. *)
Example share_scenario_deliveries :
  (λ srv, calls <$> sockets srv) <$> app_io (share demo_env alice_shares demo_world).2
  = Some [ [(7, mkPayload (share_message report))] ; [] ; [] ].
Proof. reflexivity. Qed.



(* ================================================================== *)
(** * Grouping and counting *)
(* ================================================================== *)

Section grouping.
Context {K : Type} `{EqDecision K}.

Lemma row_of_tally (k k' : K) (rows : list (K * nat)) :
  row_of k' (tally k rows) =
  if decide (k' = k) then Some (S (default 0 (row_of k rows))) else row_of k' rows.
Proof.
  induction rows as [|[k0 n] rest IH]; simpl.
  - destruct (decide (k' = k)) as [->|Hne].
    + by rewrite decide_True.
    + by rewrite decide_False.
  - destruct (decide (k0 = k)) as [->|Hk0]; simpl.
    + destruct (decide (k = k')) as [->|Hkk'].
      * by rewrite decide_True.
      * by rewrite decide_False.
    + destruct (decide (k0 = k')) as [->|Hk0'].
      * by rewrite decide_False.
      * apply IH.
Qed.

Lemma tally_keys (k k' : K) (rows : list (K * nat)) :
  k' ∈ (tally k rows).*1 ↔ k' = k ∨ k' ∈ rows.*1.
Proof.
  induction rows as [|[k0 n] rest IH]; simpl.
  - rewrite list_elem_of_singleton. split; [by left|]. intros [->|Hin]; [done|inversion Hin].
  - destruct (decide (k0 = k)) as [->|Hk0]; simpl.
    + rewrite elem_of_cons. split; [by right|]. intros [->|Hin]; [by left|done].
    + rewrite !elem_of_cons, IH. tauto.
Qed.

Lemma tally_NoDup (k : K) (rows : list (K * nat)) :
  NoDup rows.*1 → NoDup (tally k rows).*1.
Proof.
  induction rows as [|[k0 n] rest IH]; simpl; intros Hnd.
  - apply NoDup_singleton.
  - apply NoDup_cons in Hnd as [Hnotin Hnd].
    destruct (decide (k0 = k)) as [->|Hk0]; simpl.
    + by apply NoDup_cons.
    + apply NoDup_cons. split; [|by apply IH].
      rewrite tally_keys. intros [->|Hin]; done.
Qed.

Lemma row_of_None (k : K) (rows : list (K * nat)) :
  row_of k rows = None ↔ k ∉ rows.*1.
Proof.
  induction rows as [|[k0 n] rest IH]; simpl.
  - split; [intros _ Hin; inversion Hin|done].
  - rewrite not_elem_of_cons. destruct (decide (k0 = k)) as [->|Hk0].
    + split; [done|]. by intros [? _].
    + rewrite IH. split; [by split|by intros [_ ?]].
Qed.

Lemma elem_of_rows (k : K) (n : nat) (rows : list (K * nat)) :
  NoDup rows.*1 → (k, n) ∈ rows ↔ row_of k rows = Some n.
Proof.
  induction rows as [|[k0 n0] rest IH]; simpl; intros Hnd.
  - split; [intros Hin; inversion Hin|done].
  - apply NoDup_cons in Hnd as [Hnotin Hnd]. rewrite elem_of_cons.
    destruct (decide (k0 = k)) as [->|Hk0].
    + split.
      * intros [Heq|Hin]; [by simplify_eq|].
        exfalso. apply Hnotin. apply list_elem_of_fmap. by exists (k, n).
      * intros [= ->]. by left.
    + rewrite <- IH by done. split; [|by right].
      intros [Heq|Hin]; [by simplify_eq|done].
Qed.

Lemma group_count_snoc (keys : list K) (k : K) :
  group_count (keys ++ [k]) = tally k (group_count keys).
Proof. unfold group_count. by rewrite foldl_app. Qed.

Lemma key_count_snoc (k k' : K) (keys : list K) :
  key_count k' (keys ++ [k]) = key_count k' keys + (if decide (k = k') then 1 else 0).
Proof.
  unfold key_count. rewrite filter_app, length_app. f_equal.
  rewrite filter_cons, filter_nil. by destruct (decide (k = k')).
Qed.

Lemma group_count_NoDup (keys : list K) : NoDup (group_count keys).*1.
Proof.
  induction keys as [|k keys IH] using rev_ind.
  - apply NoDup_nil_2.
  - rewrite group_count_snoc. by apply tally_NoDup.
Qed.

Lemma row_of_group_count (k : K) (keys : list K) :
  row_of k (group_count keys) =
  if decide (key_count k keys = 0) then None else Some (key_count k keys).
Proof.
  induction keys as [|k0 keys IH] using rev_ind; [done|].
  rewrite group_count_snoc, row_of_tally, key_count_snoc.
  destruct (decide (k = k0)) as [->|Hne].
  - rewrite (decide_True (P := k0 = k0)) by done. rewrite IH.
    rewrite (decide_False (P := key_count k0 keys + 1 = 0)) by lia.
    destruct (decide (key_count k0 keys = 0)) as [Hz|Hnz]; simpl; f_equal; lia.
  - rewrite IH, (decide_False (P := k0 = k)) by done. by rewrite Nat.add_0_r.
Qed.

(** A grouping has one row per key that occurs, carrying the number of
    its occurrences. *)
Lemma group_count_spec (keys : list K) (k : K) (n : nat) :
  (k, n) ∈ group_count keys ↔ 0 < n ∧ n = key_count k keys.
Proof.
  rewrite elem_of_rows by apply group_count_NoDup.
  rewrite row_of_group_count.
  destruct (decide (key_count k keys = 0)) as [Hz|Hnz].
  - split; [done|]. intros [? ?]. lia.
  - split; [intros [= <-]; split; [lia|done]|]. by intros [_ ->].
Qed.

Lemma key_count_fmap_filter (P : Task → Prop) `{∀ t, Decision (P t)}
    (f : Task → K) (k : K) (docs : list Task) :
  key_count k (f <$> filter P docs) = length (filter (λ t, P t ∧ f t = k) docs).
Proof.
  unfold key_count. induction docs as [|t docs IH]; [done|].
  rewrite !filter_cons. destruct (decide (P t)) as [HP|HP].
  - rewrite fmap_cons, filter_cons. destruct (decide (f t = k)) as [Hk|Hk].
    + rewrite decide_True by done. simpl. by rewrite IH.
    + rewrite decide_False by tauto. done.
  - rewrite decide_False by tauto. done.
Qed.

End grouping.

(* ================================================================== *)
(** * Analytics: overview *)
(* ================================================================== *)

(** C7.  For an authenticated user the overview answers 200 with one
    row per status that at least one of the user's own tasks has; the
    row's count is the number of the user's tasks with that status.
    Tasks of other owners are not counted, and a status that none of the
    user's tasks has gets no row. *)
Theorem overview_counts_own_tasks_by_status (env : Env) (req : Request)
    (w : World) (u : User.t) :
  user req = Some u →
  works env TaskAggregate →
  ∃ rows,
    overview env req w = (Normal (json (JsonCounts rows)), w) ∧
    NoDup rows.*1 ∧
    ∀ s n, (s, n) ∈ rows ↔
      0 < n ∧ n = count_where (λ t, owner t = Some (User._id u) ∧ status t = s) w.
Proof.
  intros Huser Hagg. eexists. split; [|split].
  - unfold overview. js_unfold. rewrite Huser. simpl. rewrite Hagg. reflexivity.
  - apply group_count_NoDup.
  - intros s n. unfold overview_pipeline. rewrite group_count_spec.
    by rewrite key_count_fmap_filter.
Qed.

(* ================================================================== *)
(** * The calendar *)
(* ================================================================== *)

Section calendar.
Local Open Scope Z_scope.

Lemma era_day_bounds (doe : Z) :
  0 ≤ doe < 146097 → 0 ≤ year_of_era doe ≤ 399 ∧ 0 ≤ day_of_year doe ≤ 365.
Proof.
  intros H. unfold day_of_year, year_of_era. Z.div_mod_to_equations. lia.
Qed.

(** [civil_from_days] gives a month and a day of the month, and
    [days_from_civil] leads back from the first of that month. *)
Lemma civil_roundtrip (z : Z) :
  let '(y, m, d) := civil_from_days z in
  1 ≤ m ≤ 12 ∧ 1 ≤ d ≤ 31 ∧ days_from_civil y m 1 + d - 1 = z.
Proof.
  unfold civil_from_days.
  set (z' := z + 719468).
  set (era := z' `div` 146097).
  set (doe := z' - era * 146097).
  assert (Hdoe : 0 ≤ doe < 146097).
  { subst doe era. Z.div_mod_to_equations. lia. }
  destruct (era_day_bounds doe Hdoe) as [Hyoe Hdoy].
  unfold day_of_year in *.
  generalize dependent (year_of_era doe). intros yoe Hyoe Hdoy.
  set (doy := doe - (365 * yoe + yoe `div` 4 - yoe `div` 100)) in *.
  set (mp := (5 * doy + 2) `div` 153).
  assert (Hmp : 0 ≤ mp ≤ 11).
  { subst mp. Z.div_mod_to_equations. lia. }
  unfold days_from_civil.
  repeat case_decide; try lia.
  all: split; [lia|]; split; [subst mp; Z.div_mod_to_equations; lia|].
  all: subst mp doy doe; Z.div_mod_to_equations; lia.
Qed.

(** [setDate(getDate() - 7)] moves the local reading of a date back by
    seven days of 24 hours; the instant is what the zone makes of that
    reading. *)
Lemma setDate_seven_days_back (tza : Z → bool → Z) (t : Z) :
  Date_setDate tza (Date_getDate tza t - 7) t = UTC tza (LocalTime tza t - sevenDays).
Proof.
  unfold Date_setDate, Date_getDate, YearFromTime, MonthFromTime, DateFromTime,
    MakeDay, MakeDate, UTC, TimeWithinDay, sevenDays.
  pose proof (civil_roundtrip (Day (LocalTime tza t))) as Hrt.
  destruct (civil_from_days (Day (LocalTime tza t))) as [[y m] d].
  destruct Hrt as (Hm & Hd & Hrt). cbn [fst snd].
  replace ((m - 1) `div` 12) with 0 by (Z.div_mod_to_equations; lia).
  replace ((m - 1) `mod` 12 + 1) with m by (Z.div_mod_to_equations; lia).
  rewrite Z.add_0_r.
  generalize dependent (LocalTime tza t). intros lt Hrt.
  assert (Heq : (days_from_civil y m 1 + (d - 7) - 1) * msPerDay + lt `mod` msPerDay
                = lt - 7 * msPerDay).
  { unfold Day, msPerDay in *. Z.div_mod_to_equations. lia. }
  by rewrite Heq.
Qed.

Lemma sevenDaysAgo_eq (env : Env) : sevenDaysAgo env = now env - sevenDays + zone_shift env.
Proof.
  unfold sevenDaysAgo. rewrite setDate_seven_days_back.
  unfold zone_shift, UTC, LocalTime. lia.
Qed.

(** In a zone whose offset is the same all year the bound lies exactly
    seven times 24 hours back. *)
Lemma sevenDaysAgo_fixed_zone (env : Env) (offset : Z) :
  (∀ t isUTC, LocalTZA env t isUTC = offset) → sevenDaysAgo env = now env - sevenDays.
Proof.
  intros Hfixed. rewrite sevenDaysAgo_eq. unfold zone_shift. rewrite !Hfixed. lia.
Qed.

Lemma era_split (z : Z) :
  ∃ era doe, z + 719468 = era * 146097 + doe ∧ 0 ≤ doe < 146097
    ∧ (z + 719468) `div` 146097 = era.
Proof.
  exists ((z + 719468) `div` 146097), ((z + 719468) `mod` 146097).
  Z.div_mod_to_equations. lia.
Qed.

(** The day after has the later date. *)
Lemma civil_next_day (z : Z) : ymd_lt (civil_from_days z) (civil_from_days (z + 1)).
Proof.
  unfold civil_from_days, ymd_lt. cbn [fst snd].
  destruct (era_split z) as (era & doe & Hz & Hdoe & Hera).
  destruct (decide (doe = 146096)) as [Hlast|Hnot].
  - replace ((z + 1 + 719468) `div` 146097) with (era + 1)
      by (Z.div_mod_to_equations; lia).
    rewrite Hera.
    replace (z + 1 + 719468 - (era + 1) * 146097) with 0 by lia.
    replace (z + 719468 - era * 146097) with 146096 by lia.
    vm_compute year_of_era. vm_compute day_of_year. simpl.
    Z.div_mod_to_equations. lia.
  - replace ((z + 1 + 719468) `div` 146097) with era
      by (Z.div_mod_to_equations; lia).
    rewrite Hera.
    replace (z + 1 + 719468 - era * 146097) with (doe + 1) by lia.
    replace (z + 719468 - era * 146097) with doe by lia.
    assert (Hdoe1 : 0 ≤ doe + 1 < 146097) by lia.
    pose proof (era_day_bounds doe Hdoe) as [Hy0 Hd0].
    pose proof (era_day_bounds (doe + 1) Hdoe1) as [Hy1 Hd1].
    unfold day_of_year, year_of_era in *.
    repeat case_decide; Z.div_mod_to_equations; lia.
Qed.

Lemma ymd_lt_trans (a b c : Z * Z * Z) : ymd_lt a b → ymd_lt b c → ymd_lt a c.
Proof. unfold ymd_lt. lia. Qed.

Lemma civil_monotone (z1 z2 : Z) :
  z1 < z2 → ymd_lt (civil_from_days z1) (civil_from_days z2).
Proof.
  intros Hlt. replace z2 with (z1 + 1 + (z2 - z1 - 1)) by lia.
  assert (Hn : 0 ≤ z2 - z1 - 1) by lia.
  generalize dependent (z2 - z1 - 1). intros n Hn. clear Hlt z2. revert n Hn.
  apply natlike_ind.
  - rewrite Z.add_0_r. apply civil_next_day.
  - intros n Hn IH. eapply ymd_lt_trans; [exact IH|].
    replace (z1 + 1 + Z.succ n) with (z1 + 1 + n + 1) by lia. apply civil_next_day.
Qed.

Lemma civil_four_digit_year (z : Z) :
  four_digit_year z → 0 ≤ (civil_from_days z).1.1 ≤ 9999.
Proof.
  intros [Hlo Hhi]. split.
  - destruct (decide (z = -719528)) as [->|Hne]; [by vm_compute|].
    assert (Hlt : -719528 < z) by lia.
    apply civil_monotone in Hlt. change (civil_from_days (-719528)) with (0, 1, 1) in Hlt.
    destruct (civil_from_days z) as [[y m] d].
    unfold ymd_lt in Hlt. cbn [fst snd] in *. lia.
  - destruct (decide (z = 2932896)) as [->|Hne]; [by vm_compute|].
    assert (Hlt : z < 2932896) by lia.
    apply civil_monotone in Hlt. change (civil_from_days 2932896) with (9999, 12, 31) in Hlt.
    destruct (civil_from_days z) as [[y m] d].
    unfold ymd_lt in Hlt. cbn [fst snd] in *. lia.
Qed.

(** ** Keys compare as days do *)

Lemma append_cons (c : ascii) (s1 s2 : string) :
  String c s1 +:+ s2 = String c (s1 +:+ s2).
Proof. reflexivity. Qed.

Lemma append_empty (s : string) : "" +:+ s = s.
Proof. reflexivity. Qed.

Lemma digit_compare (a b : Z) (s t : string) :
  String.compare (String (digit a) s) (String (digit b) t) =
  then_compare (a `mod` 10 ?= b `mod` 10) (String.compare s t).
Proof.
  unfold digit.
  assert (Ha : 0 ≤ a `mod` 10 < 10) by (apply Z.mod_pos_bound; lia).
  assert (Hb : 0 ≤ b `mod` 10 < 10) by (apply Z.mod_pos_bound; lia).
  generalize dependent (a `mod` 10). intros x Hx.
  generalize dependent (b `mod` 10). intros y Hy.
  assert (Hxs : x = 0 ∨ x = 1 ∨ x = 2 ∨ x = 3 ∨ x = 4 ∨ x = 5 ∨ x = 6 ∨ x = 7
                ∨ x = 8 ∨ x = 9) by lia.
  assert (Hys : y = 0 ∨ y = 1 ∨ y = 2 ∨ y = 3 ∨ y = 4 ∨ y = 5 ∨ y = 6 ∨ y = 7
                ∨ y = 8 ∨ y = 9) by lia.
  clear Hx Hy.
  repeat (destruct Hxs as [->|Hxs]); try subst x;
    repeat (destruct Hys as [->|Hys]); try subst y; reflexivity.
Qed.

Lemma digits2 (a : Z) :
  0 ≤ a < 100 →
  ∃ d1 d0, 0 ≤ d1 < 10 ∧ 0 ≤ d0 < 10 ∧ a = 10 * d1 + d0 ∧
    (a `div` 10) `mod` 10 = d1 ∧ a `mod` 10 = d0.
Proof.
  intros Ha. exists (a `div` 10), (a `mod` 10).
  rewrite (Z.mod_small (a `div` 10)) by (Z.div_mod_to_equations; lia).
  Z.div_mod_to_equations. lia.
Qed.

Lemma digits4 (a : Z) :
  0 ≤ a < 10000 →
  ∃ d3 d2 d1 d0, 0 ≤ d3 < 10 ∧ 0 ≤ d2 < 10 ∧ 0 ≤ d1 < 10 ∧ 0 ≤ d0 < 10 ∧
    a = 1000 * d3 + 100 * d2 + 10 * d1 + d0 ∧
    (a `div` 1000) `mod` 10 = d3 ∧ (a `div` 100) `mod` 10 = d2 ∧
    (a `div` 10) `mod` 10 = d1 ∧ a `mod` 10 = d0.
Proof.
  intros Ha.
  exists (a `div` 1000), ((a `div` 100) `mod` 10), ((a `div` 10) `mod` 10), (a `mod` 10).
  rewrite (Z.mod_small (a `div` 1000)) by (Z.div_mod_to_equations; lia).
  replace (a `div` 1000) with (((a `div` 10) `div` 10) `div` 10)
    by (rewrite !Z.div_div by lia; done).
  replace (a `div` 100) with ((a `div` 10) `div` 10) by (rewrite Z.div_div by lia; done).
  Z.div_mod_to_equations. lia.
Qed.

Lemma pad2_compare (a b : Z) (s t : string) :
  0 ≤ a < 100 → 0 ≤ b < 100 →
  String.compare (pad2 a +:+ s) (pad2 b +:+ t) = then_compare (a ?= b) (String.compare s t).
Proof.
  intros Ha Hb. unfold pad2. rewrite !append_cons, !append_empty, !digit_compare.
  destruct (digits2 a Ha) as (a1 & a0 & ? & ? & -> & -> & ->).
  destruct (digits2 b Hb) as (b1 & b0 & ? & ? & -> & -> & ->).
  unfold then_compare.
  destruct (Z.compare_spec a1 b1); [destruct (Z.compare_spec a0 b0)| |];
    destruct (Z.compare_spec (10 * a1 + a0) (10 * b1 + b0)); try reflexivity; lia.
Qed.

Lemma pad4_compare (a b : Z) (s t : string) :
  0 ≤ a < 10000 → 0 ≤ b < 10000 →
  String.compare (pad4 a +:+ s) (pad4 b +:+ t) = then_compare (a ?= b) (String.compare s t).
Proof.
  intros Ha Hb. unfold pad4, pad2. rewrite !append_cons, !append_empty, !digit_compare.
  destruct (digits4 a Ha) as (a3 & a2 & a1 & a0 & ? & ? & ? & ? & -> & -> & -> & -> & ->).
  destruct (digits4 b Hb) as (b3 & b2 & b1 & b0 & ? & ? & ? & ? & -> & -> & -> & -> & ->).
  unfold then_compare.
  destruct (Z.compare_spec a3 b3);
    [destruct (Z.compare_spec a2 b2);
     [destruct (Z.compare_spec a1 b1); [destruct (Z.compare_spec a0 b0)| |] | |] | |];
    destruct (Z.compare_spec (1000 * a3 + 100 * a2 + 10 * a1 + a0)
                             (1000 * b3 + 100 * b2 + 10 * b1 + b0));
    try reflexivity; lia.
Qed.

Lemma pad2_append_empty (n : Z) : pad2 n +:+ "" = pad2 n.
Proof. reflexivity. Qed.

Lemma compare_same_head (c : ascii) (s t : string) :
  String.compare (String c s) (String c t) = String.compare s t.
Proof.
  cbn [String.compare].
  replace (Ascii.compare c c) with Eq; [done|].
  symmetry. by apply Ascii_as_OT.cmp_eq.
Qed.

(** For days whose year has four digits, the keys are in the order of
    the days. *)
Lemma day_key_compare (z1 z2 : Z) :
  four_digit_year z1 → four_digit_year z2 →
  String.compare (day_key z1) (day_key z2) = (z1 ?= z2).
Proof.
  intros H1 H2. unfold day_key.
  pose proof (civil_four_digit_year z1 H1) as Hy1.
  pose proof (civil_four_digit_year z2 H2) as Hy2.
  pose proof (civil_roundtrip z1) as Hr1.
  pose proof (civil_roundtrip z2) as Hr2.
  assert (Hmono12 : z1 < z2 → ymd_lt (civil_from_days z1) (civil_from_days z2))
    by apply civil_monotone.
  assert (Hmono21 : z2 < z1 → ymd_lt (civil_from_days z2) (civil_from_days z1))
    by apply civil_monotone.
  assert (Heq : z1 = z2 → civil_from_days z1 = civil_from_days z2) by (by intros ->).
  destruct (civil_from_days z1) as [[y1 m1] d1].
  destruct (civil_from_days z2) as [[y2 m2] d2].
  destruct Hr1 as (Hm1 & Hd1 & _). destruct Hr2 as (Hm2 & Hd2 & _).
  unfold ymd_lt in *. cbn [fst snd] in *.
  rewrite pad4_compare by lia.
  rewrite !append_cons, !append_empty, compare_same_head.
  rewrite pad2_compare by lia.
  rewrite compare_same_head.
  rewrite <- (pad2_append_empty d1), <- (pad2_append_empty d2).
  rewrite pad2_compare by lia.
  unfold then_compare. cbn [String.compare].
  destruct (Z.compare_spec z1 z2) as [Hz|Hz|Hz].
  - specialize (Heq Hz). simplify_eq. by rewrite !Z.compare_refl.
  - specialize (Hmono12 Hz).
    destruct (Z.compare_spec y1 y2); [destruct (Z.compare_spec m1 m2);
      [destruct (Z.compare_spec d1 d2)| |] | |]; try reflexivity; lia.
  - specialize (Hmono21 Hz).
    destruct (Z.compare_spec y1 y2); [destruct (Z.compare_spec m1 m2);
      [destruct (Z.compare_spec d1 d2)| |] | |]; try reflexivity; lia.
Qed.

Lemma day_key_ltb (z1 z2 : Z) :
  four_digit_year z1 → four_digit_year z2 →
  String.ltb (day_key z1) (day_key z2) = true ↔ z1 < z2.
Proof.
  intros H1 H2. unfold String.ltb. rewrite day_key_compare by done.
  destruct (Z.compare_spec z1 z2); split; try done; lia.
Qed.

Lemma day_key_inj (z1 z2 : Z) :
  four_digit_year z1 → four_digit_year z2 → day_key z1 = day_key z2 → z1 = z2.
Proof.
  intros H1 H2 Hkey. pose proof (day_key_compare z1 z2 H1 H2) as Hcmp.
  rewrite Hkey in Hcmp.
  assert (Hrefl : String.compare (day_key z2) (day_key z2) = Eq)
    by (by apply String_as_OT.cmp_eq).
  rewrite Hrefl in Hcmp. symmetry in Hcmp. by apply Z.compare_eq in Hcmp.
Qed.

Lemma Day_monotone (t1 t2 : Z) : t1 ≤ t2 → Day t1 ≤ Day t2.
Proof. intros H. unfold Day, msPerDay. Z.div_mod_to_equations. lia. Qed.

End calendar.

Lemma overview_counts_own_tasks_by_status_witness :
  ∃ rows,
    overview demo_env alice_asks board = (Normal (json (JsonCounts rows)), board) ∧
    NoDup rows.*1 ∧
    ∀ s n, (s, n) ∈ rows ↔
      0 < n ∧ n = count_where (λ t, owner t = Some alice_id ∧ status t = s) board.
Proof.
  apply (overview_counts_own_tasks_by_status demo_env alice_asks board alice); reflexivity.
Defined.

(** The example of the specification: two pending tasks and a
    completed one give the counts 2 and 1, and no row for the status
    the user has no task in. *)
Example overview_scenario :
  (overview demo_env alice_asks board).1
  = Normal (json (JsonCounts [(Some "Completed"%string, 1); (Some "Pending"%string, 2)])).
Proof. vm_compute. reflexivity. Qed.

(* ================================================================== *)
(** * Analytics: trends *)
(* ================================================================== *)

Lemma leb_iff (a b : string) :
  String.leb a b = true ↔ a = b ∨ String_as_OT.lt a b.
Proof.
  unfold String.leb. destruct (String.compare a b) eqn:Hc.
  - apply String_as_OT.cmp_eq in Hc. split; [by left|done].
  - apply String_as_OT.cmp_lt in Hc. split; [by right|done].
  - split; [done|]. intros [Heq|Hlt].
    + apply String_as_OT.cmp_eq in Heq. unfold String_as_OT.cmp in Heq. congruence.
    + apply String_as_OT.cmp_lt in Hlt. unfold String_as_OT.cmp in Hlt. congruence.
Qed.

Lemma ltb_iff (a b : string) : String.ltb a b = true ↔ String_as_OT.lt a b.
Proof.
  unfold String.ltb. rewrite <- String_as_OT.cmp_lt. unfold String_as_OT.cmp.
  destruct (String.compare a b); split; done.
Qed.

#[global] Instance id_le_total : Total id_le.
Proof. intros a b. apply String.leb_total. Qed.

#[global] Instance id_le_trans : Transitive id_le.
Proof.
  intros a b c. unfold id_le. rewrite !leb_iff.
  intros [Hab|Hab] [Hbc|Hbc].
  - left. congruence.
  - right. by rewrite Hab.
  - right. by rewrite <- Hbc.
  - right. by eapply String_as_OT.lt_trans.
Qed.

Lemma id_le_strict (a b : string * nat) : id_le a b → a.1 ≠ b.1 → id_lt a b.
Proof.
  unfold id_le, id_lt. rewrite leb_iff, ltb_iff. by intros [?|?] ?.
Qed.

Lemma StronglySorted_strict (rows : list (string * nat)) :
  StronglySorted id_le rows → NoDup rows.*1 → StronglySorted id_lt rows.
Proof.
  induction 1 as [|a rows Hsorted IH Hall]; intros Hnd; [constructor|].
  rewrite fmap_cons in Hnd. apply NoDup_cons in Hnd as [Hnotin Hnd].
  constructor; [by apply IH|].
  rewrite Forall_forall in *. intros b Hb. apply id_le_strict; [by apply Hall|].
  intros Heq. apply Hnotin. rewrite Heq. by apply list_elem_of_fmap_2.
Qed.

Lemma StronglySorted_positions {A} (R : relation A) (l : list A) (i j : nat) (a b : A) :
  StronglySorted R l → l !! i = Some a → l !! j = Some b → i < j → R a b.
Proof.
  intros Hsorted. revert i j. induction Hsorted as [|x l Hsorted IH Hall]; intros i j Hi Hj Hlt.
  - by rewrite lookup_nil in Hi.
  - destruct j as [|j]; [lia|]. destruct i as [|i]; simpl in *.
    + simplify_eq. rewrite Forall_forall in Hall. apply Hall.
      by eapply list_elem_of_lookup_2.
    + apply (IH i j); [done|done|lia].
Qed.

Lemma sort_by_id_elem_of (row : string * nat) (rows : list (string * nat)) :
  row ∈ sort_by_id rows ↔ row ∈ rows.
Proof. unfold sort_by_id. by rewrite merge_sort_Permutation. Qed.

Lemma sort_by_id_sorted (rows : list (string * nat)) :
  NoDup rows.*1 → StronglySorted id_lt (sort_by_id rows).
Proof.
  intros Hnd. apply StronglySorted_strict.
  - apply StronglySorted_merge_sort; apply _.
  - unfold sort_by_id. by rewrite merge_sort_Permutation.
Qed.

Lemma length_filter_iff {A} (P Q : A → Prop) `{∀ x, Decision (P x)} `{∀ x, Decision (Q x)}
    (l : list A) :
  (∀ x, x ∈ l → P x ↔ Q x) → length (filter P l) = length (filter Q l).
Proof.
  induction l as [|x l IH]; intros Hiff; [done|].
  rewrite !filter_cons.
  assert (Hl : ∀ y, y ∈ l → P y ↔ Q y) by (intros y Hy; apply Hiff; by right).
  destruct (decide (P x)) as [HP|HP], (decide (Q x)) as [HQ|HQ]; simpl.
  - by rewrite IH.
  - exfalso. apply HQ, Hiff; [by left|done].
  - exfalso. apply HP, Hiff; [by left|done].
  - by apply IH.
Qed.

Lemma filter_nonempty {A} (P : A → Prop) `{∀ x, Decision (P x)} (l : list A) :
  0 < length (filter P l) → ∃ x, x ∈ l ∧ P x.
Proof.
  destruct (filter P l) as [|x rest] eqn:Hf; simpl; [lia|]. intros _.
  assert (Hx : x ∈ filter P l) by (rewrite Hf; by left).
  apply list_elem_of_filter in Hx as [HP Hin]. by exists x.
Qed.

Lemma elem_of_documents (w : World) (t : Task) :
  t ∈ documents w ↔ ∃ id, tasks w !! id = Some t.
Proof.
  unfold documents. rewrite list_elem_of_fmap. split.
  - intros ([id t'] & -> & Hin). exists id. by apply elem_of_map_to_list.
  - intros [id Hid]. exists (id, t). split; [done|]. by apply elem_of_map_to_list.
Qed.

(** C8 as stated does not hold: the trailing window of the code is not
    seven times 24 hours.  With
    the server on New York time, a query two days after the clocks went
    back counts a task that is seven days and half an hour old, and a
    query two days after they went forward leaves out a task that is
    half an hour short of seven days old. *)
Lemma trends_window_is_not_seven_days :
  ((∀ id t, tasks autumn_board !! id = Some t →
      owner t = Some alice_id ∧ (createdAt t = now autumn_env - sevenDays - 1800000)%Z) ∧
   trends autumn_env alice_asks autumn_board
     = (Normal (json (JsonCreated [("2026-10-27"%string, 1)])), autumn_board)) ∧
  ((∀ id t, tasks spring_board !! id = Some t →
      owner t = Some alice_id ∧ (createdAt t = now spring_env - sevenDays + 1800000)%Z) ∧
   trends spring_env alice_asks spring_board
     = (Normal (json (JsonCreated [])), spring_board)).
Proof.
  split; (split; [|vm_compute; reflexivity]).
  - intros id t Ht. unfold autumn_board in Ht. simpl in Ht.
    apply lookup_insert_Some in Ht as [[_ <-]|[_ Ht]]; [by vm_compute|].
    by rewrite lookup_empty in Ht.
  - intros id t Ht. unfold spring_board in Ht. simpl in Ht.
    apply lookup_insert_Some in Ht as [[_ <-]|[_ Ht]]; [by vm_compute|].
    by rewrite lookup_empty in Ht.
Qed.

(** C8, amended.  For an authenticated user, with every stored task
    created in the years 0000 to 9999, the trends answer 200 with one row
    per calendar day (UTC) on which at least one of the user's own tasks
    was created at or after the start of the window; the row's key is
    that day written year-month-day, and it carries the number of those
    tasks.  The window starts at the same local wall-clock time seven
    calendar days before the query: seven times 24 hours back, shifted
    by the change of the zone's offset in between; the query sets no
    upper bound.  The rows are in strictly ascending order of their
    keys, and this is the order of the days, none of which lies before
    the day the window starts on. *)
Theorem trends_counts_from_window_start_by_day (env : Env) (req : Request)
    (w : World) (u : User.t) :
  user req = Some u →
  works env TaskAggregate →
  created_in_calendar w →
  ∃ rows,
    trends env req w = (Normal (json (JsonCreated rows)), w) ∧
    (∀ k n, (k, n) ∈ rows ↔
       0 < n ∧
       n = count_where (λ t, owner t = Some (User._id u) ∧
                             (now env - sevenDays + zone_shift env ≤ createdAt t)%Z ∧
                             dateToString (createdAt t) = k) w) ∧
    (∀ day n, four_digit_year day →
       (day_key day, n) ∈ rows ↔
       0 < n ∧
       n = count_where (λ t, owner t = Some (User._id u) ∧
                             (now env - sevenDays + zone_shift env ≤ createdAt t)%Z ∧
                             Day (createdAt t) = day) w) ∧
    StronglySorted id_lt rows ∧
    (∀ i j a b, rows !! i = Some a → rows !! j = Some b → i < j →
       ∃ da db, a.1 = day_key da ∧ b.1 = day_key db ∧
         (Day (now env - sevenDays + zone_shift env) ≤ da < db)%Z).
Proof.
  intros Huser Hagg Hcal.
  set (start := (now env - sevenDays + zone_shift env)%Z).
  set (rows := trends_pipeline (User._id u) start (documents w)).
  assert (Hspec : ∀ k n, (k, n) ∈ rows ↔
       0 < n ∧
       n = count_where (λ t, owner t = Some (User._id u) ∧
                             (start ≤ createdAt t)%Z ∧
                             dateToString (createdAt t) = k) w).
  { intros k n. unfold rows, trends_pipeline.
    rewrite sort_by_id_elem_of, group_count_spec, key_count_fmap_filter.
    unfold count_where.
    rewrite (length_filter_iff _
               (λ t, owner t = Some (User._id u) ∧
                     (start ≤ createdAt t)%Z ∧
                     dateToString (createdAt t) = k)); [done|].
    intros t Ht. tauto. }
  assert (Hsorted : StronglySorted id_lt rows).
  { apply sort_by_id_sorted, group_count_NoDup. }
  assert (Hday : ∀ a, a ∈ rows → ∃ da, a.1 = day_key da ∧ four_digit_year da ∧
            (Day start ≤ da)%Z).
  { intros [k n] Ha. apply Hspec in Ha as [Hpos ->].
    apply filter_nonempty in Hpos as (t & Ht & _ & Hwin & Hkey).
    apply elem_of_documents in Ht as [id Hid].
    exists (Day (createdAt t)). split; [done|]. split.
    - by apply (Hcal id t).
    - by apply Day_monotone. }
  exists rows. split; [|split; [done|split; [|split; [done|]]]].
  - unfold trends. js_unfold. rewrite Huser. simpl. rewrite Hagg.
    by rewrite sevenDaysAgo_eq.
  - intros day n Hfour. rewrite Hspec. unfold count_where.
    rewrite (length_filter_iff
               (λ t, owner t = Some (User._id u) ∧
                     (start ≤ createdAt t)%Z ∧
                     dateToString (createdAt t) = day_key day)
               (λ t, owner t = Some (User._id u) ∧
                     (start ≤ createdAt t)%Z ∧
                     Day (createdAt t) = day)); [done|].
    intros t Ht. apply elem_of_documents in Ht as [id Hid].
    apply Hcal in Hid. simpl in Hid. unfold dateToString.
    split; intros (Ho & Hs & Hk); (split; [done|split; [done|]]).
    + by apply day_key_inj.
    + by rewrite Hk.
  - intros i j a b Hi Hj Hlt.
    destruct (Hday a) as (da & Hka & Hya & Hwa); [by eapply list_elem_of_lookup_2|].
    destruct (Hday b) as (db & Hkb & Hyb & Hwb); [by eapply list_elem_of_lookup_2|].
    exists da, db. split; [done|]. split; [done|].
    pose proof (StronglySorted_positions id_lt rows i j a b Hsorted Hi Hj Hlt) as Hab.
    unfold id_lt in Hab. rewrite Hka, Hkb in Hab.
    apply day_key_ltb in Hab; [lia|done|done].
Qed.

Lemma trends_counts_from_window_start_by_day_witness :
  ∃ rows,
    trends demo_env alice_asks board = (Normal (json (JsonCreated rows)), board) ∧
    (∀ k n, (k, n) ∈ rows ↔
       0 < n ∧
       n = count_where (λ t, owner t = Some alice_id ∧
                             (now demo_env - sevenDays + zone_shift demo_env
                                ≤ createdAt t)%Z ∧
                             dateToString (createdAt t) = k) board) ∧
    (∀ day n, four_digit_year day →
       (day_key day, n) ∈ rows ↔
       0 < n ∧
       n = count_where (λ t, owner t = Some alice_id ∧
                             (now demo_env - sevenDays + zone_shift demo_env
                                ≤ createdAt t)%Z ∧
                             Day (createdAt t) = day) board) ∧
    StronglySorted id_lt rows ∧
    (∀ i j a b, rows !! i = Some a → rows !! j = Some b → i < j →
       ∃ da db, a.1 = day_key da ∧ b.1 = day_key db ∧
         (Day (now demo_env - sevenDays + zone_shift demo_env) ≤ da < db)%Z).
Proof.
  apply (trends_counts_from_window_start_by_day demo_env alice_asks board alice).
  - reflexivity.
  - reflexivity.
  - apply (bool_decide_unpack _). vm_compute. exact I.
Defined.

(** In the scenario the two recent tasks of Alice appear, one per day,
    the two-week-old one and Bob's do not. *)
Example trends_scenario :
  (trends demo_env alice_asks board).1
  = Normal (json (JsonCreated [("2025-11-01"%string, 1); ("2025-11-02"%string, 1)])).
Proof. vm_compute. reflexivity. Qed.

(* ================================================================== *)
(** * Authentication *)
(* ================================================================== *)

(** The two ways the middleware ends: it answers 401 and leaves the
    world alone, or it calls [next()] with a stored user attached. *)
Lemma authMiddleware_outcome (env : Env) (req : Request) (w : World) :
  (∃ msg, authMiddleware env req w = (Normal (Responded (status_json 401 msg)), w)) ∨
  (∃ token decoded id u,
     header_token (authorization req) = Some token ∧ token ≠ ""%string ∧
     jwt_verify env token = Some decoded ∧ jwt_id decoded = Some id ∧
     users w !! id = Some u ∧ works env UserFindById ∧
     authMiddleware env req w = (Normal (Next (set_user (Some u) req)), w)).
Proof.
  unfold authMiddleware.
  destruct (header_token (authorization req)) as [token|] eqn:Htoken; simpl;
    [|left; by eexists].
  destruct (String.eqb_spec token "") as [->|Hne]; simpl; [left; by eexists|].
  js_unfold.
  destruct (jwt_verify env token) as [decoded|] eqn:Hverify; simpl; [|left; by eexists].
  destruct (failing env UserFindById) eqn:Hfind; [left; by eexists|].
  destruct (jwt_id decoded) as [id|] eqn:Hid; simpl; [|left; by eexists].
  destruct (users w !! id) as [u|] eqn:Hu; simpl; [|left; by eexists].
  right. by exists token, decoded, id, u.
Qed.

(** C10.  A request to a protected endpoint, whatever its handler, is
    answered 401 without running the handler (the answer and the
    unchanged world do not depend on it) when the Authorization header
    yields no token, when [jwt.verify] rejects the token, or when the
    identifier in the token resolves to no user.  When the middleware
    does call [next()], the world is untouched, the route is the handler
    applied to the request with a stored user attached, and that user
    is the one the verified token names.  There is no third outcome. *)
Theorem protected_route_requires_resolved_user (env : Env) (req : Request)
    (w : World) (handler : Request → Js Response) :
  (truthy (header_token (authorization req)) = false
   ∨ (∃ token, header_token (authorization req) = Some token ∧
               jwt_verify env token = None)
   ∨ (∃ token decoded, header_token (authorization req) = Some token ∧
               jwt_verify env token = Some decoded ∧
               (jwt_id decoded ≫= λ i, users w !! i) = None)
   → ∃ msg, route (authMiddleware env) handler req w
            = (Normal (status_json 401 msg), w))
  ∧ (∀ req' w', authMiddleware env req w = (Normal (Next req'), w') →
       w' = w ∧
       route (authMiddleware env) handler req w = handler req' w ∧
       ∃ token decoded id u,
         header_token (authorization req) = Some token ∧ token ≠ ""%string ∧
         jwt_verify env token = Some decoded ∧ jwt_id decoded = Some id ∧
         users w !! id = Some u ∧ req' = set_user (Some u) req ∧
         user req' = Some u)
  ∧ ((∃ msg, route (authMiddleware env) handler req w
             = (Normal (status_json 401 msg), w))
     ∨ (∃ req', authMiddleware env req w = (Normal (Next req'), w))).
Proof.
  destruct (authMiddleware_outcome env req w) as
    [[msg Hrej]|(token & decoded & id & u & Htok & Hne & Hver & Hid & Hu & Hfind & Hnext)].
  - assert (Hroute : route (authMiddleware env) handler req w
                     = (Normal (status_json 401 msg), w)).
    { unfold route, bind. by rewrite Hrej. }
    split; [intros _; by exists msg|]. split; [|left; by exists msg].
    intros req' w' Hnext. rewrite Hrej in Hnext. discriminate.
  - split; [|split].
    + intros [Hfalsy|[(token' & Htok' & Hrej)|(token' & decoded' & Htok' & Hver' & Hnone)]].
      * rewrite Htok in Hfalsy. simpl in Hfalsy.
        apply String.eqb_neq in Hne. by rewrite Hne in Hfalsy.
      * congruence.
      * assert (decoded' = decoded) as -> by congruence.
        rewrite Hid in Hnone. simpl in Hnone. congruence.
    + intros req' w' Hnext'. rewrite Hnext in Hnext'. simplify_eq.
      split; [done|]. split.
      * unfold route, bind. by rewrite Hnext.
      * by exists token, decoded, id, u.
    + right. by eexists.
Qed.

(** A request without a header, checked against the share endpoint. *)
Lemma protected_route_requires_resolved_user_witness :
  ∃ msg, put_share demo_env (mkRequest None report_id bob_id None) demo_world
         = (Normal (status_json 401 msg), demo_world).
Proof.
  apply (proj1 (protected_route_requires_resolved_user
                  demo_env (mkRequest None report_id bob_id None) demo_world (share demo_env))).
  left. reflexivity.
Defined.

(** The three rejections and an accepted request, in the scenario. *)
Example auth_scenario :
  (put_share demo_env (mkRequest (Some "Bearer"%string) report_id bob_id None) demo_world).1
    = Normal (status_json 401 "No token provided") ∧
  (put_share demo_env (mkRequest (Some "Bearer forged"%string) report_id bob_id None) demo_world).1
    = Normal (status_json 401 "Invalid token") ∧
  (put_share demo_env (mkRequest (Some "Bearer token-ghost"%string) report_id bob_id None) demo_world).1
    = Normal (status_json 401 "Invalid token") ∧
  code <$> (match (put_share demo_env alice_shares demo_world).1 with
            | Normal r => Some r
            | Thrown _ => None
            end) = Some 200%Z.
Proof. repeat split; reflexivity. Qed.

(* ================================================================== *)
(** * The invariant of the task store *)
(* ================================================================== *)












(** Creation in the scenario: Bob creates a task without naming a
    status; it is stored as his, and pending. *)
Example create_scenario :
  (λ t, (owner t, status t, sharedWith t)) <$>
    tasks (perform (Create task2_id call_client) demo_env bob_creates demo_world) !! task2_id
  = Some (Some bob_id, Some "Pending"%string, []).
Proof. vm_compute. reflexivity. Qed.

(** A creation that names a status outside the enumeration stores
    nothing. *)
Example create_rejected_scenario :
  tasks (perform (Create task2_id (mkTaskBody (Some "Call client"%string) None
                                          (Some (Some "Done"%string)) None))
                 demo_env bob_creates demo_world) !! task2_id
  = None.
Proof. vm_compute. reflexivity. Qed.

(* ================================================================== *)
(** * More about sharing: the shared list, failure, and what stays *)
(* ================================================================== *)

Lemma shared_run (env : Env) (req : Request) (w : World) (u : User.t) :
  user req = Some u →
  works env TaskFind →
  shared env req w =
    (Normal (json (JsonTasks
       (filter (λ d, includes (sharedWith d.2) (User._id u) = true)
               (map_to_list (tasks w))))), w).
Proof.
  intros Huser Hfind. unfold shared. js_unfold. rewrite Huser. simpl. by rewrite Hfind.
Qed.

Lemma shared_list_elem_of (uid id : string) (t : Task) (w : World) :
  (id, t) ∈ filter (λ d, includes (sharedWith d.2) uid = true) (map_to_list (tasks w))
  ↔ tasks w !! id = Some t ∧ uid ∈ sharedWith t.
Proof.
  rewrite list_elem_of_filter, elem_of_map_to_list. simpl.
  rewrite includes_true_iff. tauto.
Qed.

(** The shared list of a requester holds exactly the stored tasks whose
    shared-with array contains the requester's identifier, each once;
    a task the requester merely owns is not in it.  The call changes
    nothing. *)
Theorem shared_lists_tasks_shared_with_requester (env : Env) (req : Request)
    (w : World) (u : User.t) :
  user req = Some u →
  works env TaskFind →
  ∃ l,
    shared env req w = (Normal (json (JsonTasks l)), w) ∧
    NoDup l.*1 ∧
    ∀ id t, (id, t) ∈ l ↔ tasks w !! id = Some t ∧ User._id u ∈ sharedWith t.
Proof.
  intros Huser Hfind. eexists. split; [by apply shared_run|]. split.
  - eapply NoDup_fmap_fst.
    + intros id t1 t2 H1 H2.
      apply shared_list_elem_of in H1 as [H1 _]. apply shared_list_elem_of in H2 as [H2 _].
      congruence.
    + apply NoDup_filter, NoDup_map_to_list.
  - intros id t. apply shared_list_elem_of.
Qed.

Lemma shared_lists_tasks_shared_with_requester_witness :
  ∃ l,
    shared demo_env bob_asks demo_world = (Normal (json (JsonTasks l)), demo_world) ∧
    NoDup l.*1 ∧
    ∀ id t, (id, t) ∈ l ↔ tasks demo_world !! id = Some t ∧ bob_id ∈ sharedWith t.
Proof.
  apply (shared_lists_tasks_shared_with_requester demo_env bob_asks demo_world bob);
    reflexivity.
Defined.

(** Sharing and the shared list fit together: once the owner's share
    call has added a user, that user's shared list contains the task,
    as it is stored, whether or not the notification could be sent. *)
Theorem shared_list_shows_task_after_share (env env' : Env) (req req' : Request)
    (w : World) (u v : User.t) (t : Task) :
  user req = Some u →
  tasks w !! params_id req = Some t →
  owner t = Some (User._id u) →
  TaskSchema_validate t = true →
  works env TaskFindById → works env TaskSave →
  user req' = Some v →
  User._id v = body_userIdToShare req →
  works env' TaskFind →
  ∃ l t',
    shared env' req' (share env req w).2 = (Normal (json (JsonTasks l)), (share env req w).2) ∧
    tasks (share env req w).2 !! params_id req = Some t' ∧
    (params_id req, t') ∈ l.
Proof.
  intros Huser Hfound Howner Hvalid Hfind Hsave Huser' Hv Hfind'.
  pose proof (shared_run env' req' (share env req w).2 v Huser' Hfind') as Hrun.
  set (l := filter (λ d, includes (sharedWith d.2) (User._id v) = true)
                   (map_to_list (tasks (share env req w).2))) in Hrun.
  assert (Hl : ∀ id t0, (id, t0) ∈ l ↔
            tasks (share env req w).2 !! id = Some t0 ∧ User._id v ∈ sharedWith t0)
    by (intros; apply shared_list_elem_of).
  clearbody l.
  destruct (includes (sharedWith t) (body_userIdToShare req)) eqn:Hin.
  - rewrite (share_run_present env req w u t Huser Hfound Hfind Howner Hin) in *.
    simpl in *. exists l, t. split; [done|]. split; [done|].
    apply Hl. split; [done|]. rewrite Hv. by apply includes_true_iff.
  - destruct (share_run_writes env req w u t Huser Hfound Hfind Howner Hin Hvalid Hsave)
      as (r & io' & Hshare).
    rewrite Hshare in *. simpl in *.
    eexists l, _. split; [done|]. split; [by rewrite lookup_insert_eq|].
    apply Hl. rewrite lookup_insert_eq. split; [done|].
    rewrite Hv. simpl. apply elem_of_app. right. by left.
Qed.

Lemma shared_list_shows_task_after_share_witness :
  ∃ l t',
    shared demo_env bob_asks (share demo_env alice_shares demo_world_no_io).2
      = (Normal (json (JsonTasks l)), (share demo_env alice_shares demo_world_no_io).2) ∧
    tasks (share demo_env alice_shares demo_world_no_io).2 !! report_id = Some t' ∧
    (report_id, t') ∈ l.
Proof.
  apply (shared_list_shows_task_after_share demo_env demo_env alice_shares bob_asks
           demo_world_no_io alice bob report); reflexivity.
Defined.



(** Within the document, a share call can append the identifier the
    target text is cast to and stamp [updatedAt], nothing else: title,
    description, status, due date, owner, attachments and creation time
    stay, and whoever was in the array is still in it, at the same
    place.  Sharing never revokes.  What is appended was not in the
    array as the text of the request. *)
Theorem share_only_appends (env : Env) (req : Request) (w : World) (oid : string)
    (t : Task) :
  castObjectId (params_id req) = Some oid →
  tasks w !! oid = Some t →
  ∃ t',
    tasks (Wire.share env req w).2 !! oid = Some t' ∧
    same_content t' t ∧
    (sharedWith t' = sharedWith t ∧ updatedAt t' = updatedAt t
     ∨ ∃ target,
         castObjectId (body_userIdToShare req) = Some target ∧
         sharedWith t' = sharedWith t ++ [target] ∧
         updatedAt t' = now env ∧ body_userIdToShare req ∉ sharedWith t) ∧
    ∀ i x, sharedWith t !! i = Some x → sharedWith t' !! i = Some x.
Proof.
  intros Hid Ht.
  destruct (wire_share_store_outcome env req w)
    as [_ [Hsame|(oid0 & target & t0 & Hid0 & Htarget & Ht0 & Hin & Hw')]].
  - exists t. rewrite Hsame. split; [done|]. split; [done|]. split; [by left|done].
  - assert (oid0 = oid) as -> by congruence.
    assert (t0 = t) as -> by congruence.
    eexists. rewrite Hw', lookup_insert_eq. split; [done|]. split; [done|]. simpl.
    split.
    + right. exists target. split; [done|]. split; [done|]. split; [done|].
      by apply includes_false_iff.
    + intros i x Hx. by apply lookup_app_l_Some.
Qed.

Lemma share_only_appends_witness :
  ∃ t',
    tasks (Wire.share demo_env alice_shares_upper demo_world_shared).2 !! report_id = Some t' ∧
    same_content t' report_shared ∧
    (sharedWith t' = sharedWith report_shared ∧ updatedAt t' = updatedAt report_shared
     ∨ ∃ target,
         castObjectId (body_userIdToShare alice_shares_upper) = Some target ∧
         sharedWith t' = sharedWith report_shared ++ [target] ∧
         updatedAt t' = now demo_env ∧
         body_userIdToShare alice_shares_upper ∉ sharedWith report_shared) ∧
    ∀ i x, sharedWith report_shared !! i = Some x → sharedWith t' !! i = Some x.
Proof.
  apply (share_only_appends demo_env alice_shares_upper demo_world_shared report_id
           report_shared); reflexivity.
Defined.

(** When the write fails, nothing happens: if [save] throws (the store
    refuses the write, or the document does not pass the schema), the
    call answers 500 and the world, the emitted events included, is
    what it was.  No notification goes out for a share that was not
    stored. *)
Theorem share_failed_write_changes_nothing (env : Env) (req : Request) (w : World)
    (u : User.t) (t : Task) :
  user req = Some u →
  tasks w !! params_id req = Some t →
  owner t = Some (User._id u) →
  works env TaskFindById →
  includes (sharedWith t) (body_userIdToShare req) = false →
  failing env TaskSave = true ∨ TaskSchema_validate t = false →
  share env req w = (Normal (status_json 500 "Error sharing task"), w).
Proof.
  intros Huser Hfound Howner Hfind Hin Hfail. unfold share. js_unfold.
  rewrite Hfind, Hfound. simpl. rewrite Howner. simpl. rewrite Huser. simpl.
  rewrite String.eqb_refl. simpl. rewrite Hin. simpl.
  destruct (failing env TaskSave) eqn:Hsave; [done|].
  destruct Hfail as [?|Hinvalid]; [done|].
  by rewrite validate_set_sharedWith, Hinvalid.
Qed.

Lemma share_failed_write_changes_nothing_witness :
  share (mkEnv 0 (λ _ _, 0%Z) (λ c, if c is TaskSave then true else false) demo_jwt)
        alice_shares demo_world
  = (Normal (status_json 500 "Error sharing task"), demo_world).
Proof.
  apply (share_failed_write_changes_nothing _ alice_shares demo_world alice report);
    first [reflexivity | by left].
Defined.



(* ================================================================== *)
(** * More about the middleware: the header, and a failing store *)
(* ================================================================== *)

Lemma split_without_separator (sep : ascii) (s : string) :
  has_char sep s = false → split sep s = [s].
Proof.
  induction s as [|c s IH]; simpl; [done|].
  destruct (Ascii.eqb c sep); simpl; [done|]. intros Hs. by rewrite IH.
Qed.

Lemma split_at_first_separator (sep : ascii) (a b : string) :
  has_char sep a = false → split sep (a +:+ String sep b) = a :: split sep b.
Proof.
  induction a as [|c a IH]; simpl.
  - intros _. by rewrite Ascii.eqb_refl.
  - destruct (Ascii.eqb c sep); simpl; [done|]. intros Ha. by rewrite IH.
Qed.

Lemma header_token_fields (scheme token rest : string) :
  has_char " " scheme = false →
  has_char " " token = false →
  header_token (Some scheme) = None ∧
  header_token (Some (scheme +:+ " " +:+ token)) = Some token ∧
  header_token (Some (scheme +:+ " " +:+ token +:+ " " +:+ rest)) = Some token.
Proof.
  intros Hscheme Htoken. unfold header_token. simpl. repeat split.
  - by rewrite split_without_separator.
  - change (" " +:+ token) with (String " " token).
    rewrite split_at_first_separator by done. simpl.
    by rewrite split_without_separator.
  - change (" " +:+ token +:+ " " +:+ rest) with (String " " (token +:+ String " " rest)).
    rewrite split_at_first_separator by done. simpl.
    by rewrite split_at_first_separator.
Qed.

(** The token is the second space-separated field of the header,
    whatever the first field is: a header of one word has no token, the
    word in front of the first space is not looked at, anything after a
    second space is ignored, and two spaces in a row give the empty
    token, which counts as no token. *)
Theorem header_token_is_second_field (scheme token rest : string) :
  has_char " " scheme = false →
  has_char " " token = false →
  header_token (Some scheme) = None ∧
  header_token (Some (scheme +:+ " " +:+ token)) = Some token ∧
  header_token (Some (scheme +:+ " " +:+ token +:+ " " +:+ rest)) = Some token ∧
  truthy (header_token (Some (scheme +:+ " " +:+ " " +:+ rest))) = false.
Proof.
  intros Hscheme Htoken.
  destruct (header_token_fields scheme token rest Hscheme Htoken) as (H1 & H2 & H3).
  repeat split; try done.
  destruct (header_token_fields scheme "" rest Hscheme eq_refl) as (_ & _ & H4).
  change (scheme +:+ " " +:+ "" +:+ " " +:+ rest) with (scheme +:+ " " +:+ " " +:+ rest) in H4.
  by rewrite H4.
Qed.

Lemma header_token_is_second_field_witness :
  header_token (Some "Bearer"%string) = None ∧
  header_token (Some ("Bearer" +:+ " " +:+ "token-alice")) = Some "token-alice"%string ∧
  header_token (Some ("Bearer" +:+ " " +:+ "token-alice" +:+ " " +:+ "and more"))
    = Some "token-alice"%string ∧
  truthy (header_token (Some ("Bearer" +:+ " " +:+ " " +:+ "and more"))) = false.
Proof.
  apply (header_token_is_second_field "Bearer" "token-alice" "and more"); reflexivity.
Defined.

(** The middleware does not check the authentication scheme: a header
    made of any word, a space and a token that verifies and names a
    stored user lets the request through, with that user attached. *)
Theorem authMiddleware_accepts_any_scheme (env : Env) (req : Request) (w : World)
    (scheme token id : string) (decoded : JwtPayload) (u : User.t) :
  authorization req = Some (scheme +:+ " " +:+ token) →
  has_char " " scheme = false →
  has_char " " token = false →
  token ≠ ""%string →
  jwt_verify env token = Some decoded →
  jwt_id decoded = Some id →
  users w !! id = Some u →
  works env UserFindById →
  authMiddleware env req w = (Normal (Next (set_user (Some u) req)), w).
Proof.
  intros Hheader Hscheme Htoken Hne Hverify Hid Hu Hfind.
  destruct (header_token_fields scheme token "" Hscheme Htoken) as (_ & Htok & _).
  unfold authMiddleware. rewrite Hheader, Htok. simpl.
  apply String.eqb_neq in Hne. rewrite Hne. simpl.
  js_unfold. rewrite Hverify. simpl. rewrite Hfind, Hid. simpl. by rewrite Hu.
Qed.

Lemma authMiddleware_accepts_any_scheme_witness :
  authMiddleware demo_env
    (mkRequest (Some ("Basic" +:+ " " +:+ "token-alice")) report_id bob_id None) demo_world
  = (Normal (Next (mkRequest (Some ("Basic" +:+ " " +:+ "token-alice")) report_id bob_id
                             (Some alice))), demo_world).
Proof.
  apply (authMiddleware_accepts_any_scheme demo_env
           (mkRequest (Some ("Basic" +:+ " " +:+ "token-alice")) report_id bob_id None)
           demo_world "Basic" "token-alice" alice_id
           (mkPayloadJwt (Some alice_id)) alice); first [reflexivity | discriminate].
Defined.

(** A failing user lookup is reported as a bad token: when the store
    call of the middleware throws, a request that carries a token, valid
    or not, is answered 401 with the text for an invalid token, and the
    handler does not run. *)
Theorem auth_store_failure_answers_401 (env : Env) (req : Request) (w : World)
    (handler : Request → Js Response) :
  failing env UserFindById = true →
  truthy (header_token (authorization req)) = true →
  route (authMiddleware env) handler req w
    = (Normal (status_json 401 "Invalid token"), w).
Proof.
  intros Hdown Htoken. unfold route, bind, authMiddleware. rewrite Htoken. simpl.
  js_unfold. destruct (header_token (authorization req) ≫= jwt_verify env); simpl;
    [by rewrite Hdown|done].
Qed.

Lemma auth_store_failure_answers_401_witness :
  put_share (mkEnv 0 (λ _ _, 0%Z) (λ _, true) demo_jwt) alice_shares demo_world
    = (Normal (status_json 401 "Invalid token"), demo_world).
Proof.
  apply (auth_store_failure_answers_401 (mkEnv 0 (λ _ _, 0%Z) (λ _, true) demo_jwt) alice_shares
           demo_world); reflexivity.
Defined.

(* ================================================================== *)
(** * More about the channel: repeated subscriptions *)
(* ================================================================== *)

(** [socket.on] does not look for an existing listener: a socket that
    calls [listenForNotifications] twice for the same user has its
    callback called twice for every event of that user. *)
Theorem subscribing_twice_doubles_the_calls (userId : string) (cb : nat) (p : Payload)
    (c : ClientSocket) :
  connected c = true →
  calls (socket_receive (notify userId) p
           (listenForNotifications userId cb (listenForNotifications userId cb c)))
  = calls c ++ ((λ cb', (cb', p)) <$> subscriptions userId c) ++ [(cb, p); (cb, p)].
Proof.
  intros Hconn. rewrite socket_receive_calls. simpl. rewrite Hconn.
  rewrite !subscriptions_listen, !decide_True by done.
  by rewrite !fmap_app, <- !app_assoc.
Qed.

Lemma subscribing_twice_doubles_the_calls_witness :
  calls (socket_receive (notify bob_id) (mkPayload "hello")
           (listenForNotifications bob_id 7 (listenForNotifications bob_id 7 tab)))
  = calls tab ++ ((λ cb', (cb', mkPayload "hello")) <$> subscriptions bob_id tab)
      ++ [(7, mkPayload "hello"); (7, mkPayload "hello")].
Proof.
  apply (subscribing_twice_doubles_the_calls bob_id 7 (mkPayload "hello") tab). reflexivity.
Defined.

(* ================================================================== *)
(** * More about the analytics: totals, empty results, failure *)
(* ================================================================== *)

Lemma total_tally {K} `{EqDecision K} (k : K) (rows : list (K * nat)) :
  total (tally k rows) = S (total rows).
Proof.
  unfold total. induction rows as [|[k' n] rest IH]; [done|].
  cbn [tally]. destruct (decide (k' = k)); [done|].
  change (n + sum_list (tally k rest).*2 = S (n + sum_list rest.*2)).
  rewrite IH. lia.
Qed.

Lemma total_group_count {K} `{EqDecision K} (keys : list K) :
  total (group_count keys) = length keys.
Proof.
  induction keys as [|k keys IH] using rev_ind; [done|].
  rewrite group_count_snoc, total_tally, IH, length_app. simpl. lia.
Qed.

Lemma total_sort_by_id (rows : list (string * nat)) : total (sort_by_id rows) = total rows.
Proof.
  unfold total, sort_by_id. by rewrite merge_sort_Permutation.
Qed.

Lemma filter_none {A} (P : A → Prop) `{∀ x, Decision (P x)} (l : list A) :
  (∀ x, x ∈ l → ¬ P x) → filter P l = [].
Proof.
  induction l as [|x l IH]; intros Hnone; [done|].
  rewrite filter_cons, decide_False by (apply Hnone; by left).
  apply IH. intros y Hy. apply Hnone. by right.
Qed.

Lemma overview_run (env : Env) (req : Request) (w : World) (u : User.t) :
  user req = Some u → works env TaskAggregate →
  overview env req w
    = (Normal (json (JsonCounts (overview_pipeline (User._id u) (documents w)))), w).
Proof.
  intros Huser Hagg. unfold overview. js_unfold. rewrite Huser. simpl. by rewrite Hagg.
Qed.

Lemma trends_run (env : Env) (req : Request) (w : World) (u : User.t) :
  user req = Some u → works env TaskAggregate →
  trends env req w
    = (Normal (json (JsonCreated
         (trends_pipeline (User._id u) (sevenDaysAgo env) (documents w)))), w).
Proof.
  intros Huser Hagg. unfold trends. js_unfold. rewrite Huser. simpl. by rewrite Hagg.
Qed.

(** The counts of the overview add up to the number of tasks the
    requester owns: every own task is counted, under exactly one
    status. *)
Theorem overview_counts_add_up (env : Env) (req : Request) (w : World) (u : User.t) :
  user req = Some u →
  works env TaskAggregate →
  ∃ rows,
    overview env req w = (Normal (json (JsonCounts rows)), w) ∧
    total rows = count_where (λ t, owner t = Some (User._id u)) w.
Proof.
  intros Huser Hagg. eexists. split; [by apply overview_run|].
  unfold overview_pipeline. by rewrite total_group_count, length_fmap.
Qed.

Lemma overview_counts_add_up_witness :
  ∃ rows,
    overview demo_env alice_asks board = (Normal (json (JsonCounts rows)), board) ∧
    total rows = count_where (λ t, owner t = Some alice_id) board.
Proof.
  apply (overview_counts_add_up demo_env alice_asks board alice); reflexivity.
Defined.

(** The overview of a requester is the empty array exactly when the
    requester owns no task; tasks of others, shared with the requester
    or not, never make a row. *)
Theorem overview_empty_without_own_tasks (env : Env) (req : Request) (w : World)
    (u : User.t) :
  user req = Some u →
  works env TaskAggregate →
  overview env req w = (Normal (json (JsonCounts [])), w)
  ↔ ∀ id t, tasks w !! id = Some t → owner t ≠ Some (User._id u).
Proof.
  intros Huser Hagg. rewrite (overview_run env req w u Huser Hagg).
  unfold overview_pipeline. split.
  - intros [= Hrows] id t Ht Ho.
    assert (Hlen : length (status <$> filter (λ t, owner t = Some (User._id u)) (documents w)) = 0)
      by (by rewrite <- total_group_count, Hrows).
    rewrite length_fmap in Hlen. apply nil_length_inv in Hlen.
    assert (Hin : t ∈ filter (λ t, owner t = Some (User._id u)) (documents w)).
    { apply list_elem_of_filter. split; [done|]. apply elem_of_documents. by exists id. }
    rewrite Hlen in Hin. inversion Hin.
  - intros Hnone.
    replace (filter (λ t, owner t = Some (User._id u)) (documents w)) with (@nil Task); [done|].
    symmetry. apply filter_none. intros t Ht.
    apply elem_of_documents in Ht as [id Ht]. by apply (Hnone id).
Qed.

Lemma overview_empty_without_own_tasks_witness :
  overview demo_env (mkRequest None "" "" (Some carol)) board
    = (Normal (json (JsonCounts [])), board)
  ↔ ∀ id t, tasks board !! id = Some t → owner t ≠ Some carol_id.
Proof.
  apply (overview_empty_without_own_tasks demo_env _ board carol); reflexivity.
Defined.

(** The counts of the trends add up to the number of own tasks created
    at or after the start of the window, [sevenDaysAgo]: the same local
    wall-clock time seven calendar days before the query, which is seven
    times 24 hours back when the zone's offset did not change in between.
    The pipeline has no upper bound.  The total never exceeds what the
    overview counts. *)
Theorem trends_counts_add_up (env : Env) (req : Request) (w : World) (u : User.t) :
  user req = Some u →
  works env TaskAggregate →
  ∃ rows,
    trends env req w = (Normal (json (JsonCreated rows)), w) ∧
    total rows = count_where (λ t, owner t = Some (User._id u) ∧
                                   (sevenDaysAgo env ≤ createdAt t)%Z) w ∧
    sevenDaysAgo env = (now env - sevenDays + zone_shift env)%Z ∧
    total rows ≤ count_where (λ t, owner t = Some (User._id u)) w.
Proof.
  intros Huser Hagg. eexists. split; [by apply trends_run|].
  unfold trends_pipeline. rewrite total_sort_by_id, total_group_count, length_fmap.
  split; [done|]. split; [apply sevenDaysAgo_eq|]. unfold count_where.
  rewrite <- (list_filter_filter_l
                (λ t, owner t = Some (User._id u) ∧ (sevenDaysAgo env ≤ createdAt t)%Z)
                (λ t, owner t = Some (User._id u))); [|by intros t [? ?]].
  apply length_filter.
Qed.

Lemma trends_counts_add_up_witness :
  ∃ rows,
    trends demo_env alice_asks board = (Normal (json (JsonCreated rows)), board) ∧
    total rows = count_where (λ t, owner t = Some alice_id ∧
                                   (sevenDaysAgo demo_env ≤ createdAt t)%Z) board ∧
    sevenDaysAgo demo_env = (now demo_env - sevenDays + zone_shift demo_env)%Z ∧
    total rows ≤ count_where (λ t, owner t = Some alice_id) board.
Proof.
  apply (trends_counts_add_up demo_env alice_asks board alice); reflexivity.
Defined.

(** In the week after the clocks went forward the window is an hour
    short of seven days: the task created six days, 23 hours and 30
    minutes before the query is not counted. *)
Example trends_spring_scenario :
  zone_shift spring_env = 3600000%Z ∧
  (trends spring_env alice_asks spring_board).1 = Normal (json (JsonCreated [])).
Proof. split; vm_compute; reflexivity. Qed.

(** The reading handlers never write: whatever the request and however
    the call ends, the world after the shared list, the overview or the
    trends is the world before. *)
Theorem reading_handlers_never_write (env : Env) (req : Request) (w : World) :
  (shared env req w).2 = w ∧ (overview env req w).2 = w ∧ (trends env req w).2 = w.
Proof.
  unfold shared, overview, trends. js_unfold.
  destruct (user req); simpl; [|done].
  by destruct (failing env TaskFind), (failing env TaskAggregate).
Qed.

(** The analytics handlers fail closed: when the aggregation throws,
    or no user is attached to the request, the answer is 500 with the
    handler's own message and no data. *)
Theorem analytics_failure_answers_500 (env : Env) (req : Request) (w : World) :
  failing env TaskAggregate = true ∨ user req = None →
  overview env req w = (Normal (status_json 500 "Analytics error"), w) ∧
  trends env req w = (Normal (status_json 500 "Trend error"), w).
Proof.
  intros Hfail. unfold overview, trends. js_unfold.
  destruct (user req); simpl; [|done].
  destruct Hfail as [->|?]; done.
Qed.

Lemma analytics_failure_answers_500_witness :
  overview (mkEnv 0 (λ _ _, 0%Z) (λ _, true) demo_jwt) alice_asks board
    = (Normal (status_json 500 "Analytics error"), board) ∧
  trends (mkEnv 0 (λ _ _, 0%Z) (λ _, true) demo_jwt) alice_asks board
    = (Normal (status_json 500 "Trend error"), board).
Proof.
  apply (analytics_failure_answers_500 (mkEnv 0 (λ _ _, 0%Z) (λ _, true) demo_jwt) alice_asks board).
  left. reflexivity.
Defined.

(** Two instants get the same [%Y-%m-%d] key exactly when they lie on
    the same UTC day (for years of four digits): the rows of the trends
    are days, neither split nor merged by the rendering. *)
Theorem dateToString_same_key_same_day (t1 t2 : Z) :
  four_digit_year (Day t1) → four_digit_year (Day t2) →
  dateToString t1 = dateToString t2 ↔ Day t1 = Day t2.
Proof.
  intros H1 H2. unfold dateToString. split; [|by intros ->].
  intros Hkey. pose proof (day_key_compare (Day t1) (Day t2) H1 H2) as Hcmp.
  rewrite Hkey in Hcmp.
  assert (Hrefl : String.compare (day_key (Day t2)) (day_key (Day t2)) = Eq)
    by (by apply String_as_OT.cmp_eq).
  rewrite Hrefl in Hcmp. symmetry in Hcmp. by apply Z.compare_eq in Hcmp.
Qed.

Lemma dateToString_same_key_same_day_witness :
  dateToString 1761991200000 = dateToString 1762041599999
  ↔ Day 1761991200000 = Day 1762041599999.
Proof.
  apply (dateToString_same_key_same_day 1761991200000 1762041599999);
    vm_compute; split; discriminate.
Defined.

(* ================================================================== *)
(** * The user model: hashing on save *)
(* ================================================================== *)

Lemma username_taken_after_save (u : User.t) (w : World) :
  username_taken u w = false →
  username_taken u (mkWorld (<[User._id u := u]> (users w)) (tasks w) (app_io w)) = false.
Proof.
  unfold username_taken. rewrite !bool_decide_eq_false. simpl.
  intros Hfree Htaken. apply Hfree.
  apply map_Exists_lookup in Htaken as (id & u' & Hlookup & Hne & Hname).
  rewrite lookup_insert_ne in Hlookup by done.
  apply map_Exists_lookup. by exists id, u'.
Qed.

(** Setting a password and saving stores its hash, and saving again
    leaves that hash alone: the hook hashes only a modified password.
    So the password given at the start still verifies after any number
    of later saves, provided [bcrypt.compare] accepts the hash that
    [bcrypt.hash] made of it.  The save goes through when the validators
    pass (user name, password and hash are not empty), the store takes
    the write and no other user has the name; with an empty password, or
    an empty user name, the validators refuse the document before the
    hook runs. *)
Theorem saved_password_verifies (env : Env) (bcrypt : Bcrypt) (this : UserDoc)
    (w : World) (p salt hashed : string) :
  User.username (fields this) ≠ ""%string →
  p ≠ ""%string →
  hashed ≠ ""%string →
  bcrypt_genSalt bcrypt 10 = Some salt →
  bcrypt_hash bcrypt p salt = Some hashed →
  bcrypt_compare bcrypt p hashed = true →
  works env UserSave →
  username_taken (fields this) w = false →
  ∃ saved w',
    UserDoc_save env bcrypt (assign_password p this) w = (Normal saved, w') ∧
    users w' !! User._id (fields this) = Some (fields saved) ∧
    User.password (fields saved) = hashed ∧
    User._id (fields saved) = User._id (fields this) ∧
    User.username (fields saved) = User.username (fields this) ∧
    UserDoc_save env bcrypt saved w' = (Normal saved, w') ∧
    comparePassword bcrypt (fields saved) p = true ∧
    (∀ w0, UserDoc_save env bcrypt (assign_password "" this) w0
           = (Thrown "ValidationError", w0)).
Proof.
  intros Hname Hp Hhashed Hsalt Hhash Hcompare Hsave Hfree.
  apply String.eqb_neq in Hname, Hp, Hhashed.
  set (u := set_password hashed (fields this)).
  exists (mkUserDoc u false),
         (mkWorld (<[User._id u := u]> (users w)) (tasks w) (app_io w)).
  assert (Hfirst : UserDoc_save env bcrypt (assign_password p this) w
            = (Normal (mkUserDoc u false),
               mkWorld (<[User._id u := u]> (users w)) (tasks w) (app_io w))).
  { unfold UserDoc_save, UserSchema_validate, UserSchema_pre_save. simpl.
    rewrite Hname, Hp. simpl. rewrite Hsalt, Hhash, Hsave.
    change (username_taken (set_password hashed (set_password p (fields this))) w)
      with (username_taken (fields this) w).
    by rewrite Hfree. }
  split; [done|]. split; [simpl; by rewrite lookup_insert_eq|].
  split; [done|]. split; [done|]. split; [done|]. split; [|split; [done|]].
  - unfold UserDoc_save, UserSchema_validate, UserSchema_pre_save. simpl.
    rewrite Hname, Hhashed. simpl. rewrite Hsave.
    pose proof (username_taken_after_save u w Hfree) as Hstill. simpl in Hstill.
    by rewrite Hstill, insert_insert_eq.
  - intros w0. unfold UserDoc_save, UserSchema_validate. simpl.
    by rewrite andb_false_r.
Qed.

Lemma saved_password_verifies_witness :
  ∃ saved w',
    UserDoc_save demo_env demo_bcrypt (assign_password "s3cret" new_user) demo_world
      = (Normal saved, w') ∧
    users w' !! User._id (fields new_user) = Some (fields saved) ∧
    User.password (fields saved) = "salt$s3cret"%string ∧
    User._id (fields saved) = User._id (fields new_user) ∧
    User.username (fields saved) = User.username (fields new_user) ∧
    UserDoc_save demo_env demo_bcrypt saved w' = (Normal saved, w') ∧
    comparePassword demo_bcrypt (fields saved) "s3cret" = true ∧
    (∀ w0, UserDoc_save demo_env demo_bcrypt (assign_password "" new_user) w0
           = (Thrown "ValidationError", w0)).
Proof.
  apply (saved_password_verifies demo_env demo_bcrypt new_user demo_world
           "s3cret" "salt" "salt$s3cret");
    first [reflexivity | discriminate].
Defined.

(** A save whose hashing fails is refused: when a document that passes
    the validators has a modified password, and either the salt or the
    hash cannot be made, the hook passes the error on, [save] throws it
    and nothing is written. *)
Theorem failed_hashing_refuses_save (env : Env) (bcrypt : Bcrypt) (this : UserDoc)
    (w : World) :
  UserSchema_validate (fields this) = true →
  isModified_password this = true →
  bcrypt_genSalt bcrypt 10 = None
  ∨ (∀ salt, bcrypt_hash bcrypt (User.password (fields this)) salt = None) →
  UserDoc_save env bcrypt this w = (Thrown "bcrypt", w).
Proof.
  intros Hvalid Hmodified Hfail. unfold UserDoc_save, UserSchema_pre_save.
  rewrite Hvalid, Hmodified. simpl.
  destruct Hfail as [->|Hhash]; [done|].
  destruct (bcrypt_genSalt bcrypt 10); [|done]. by rewrite Hhash.
Qed.

Lemma failed_hashing_refuses_save_witness :
  UserDoc_save demo_env (mkBcrypt (λ _, None) (λ _ _, None) (λ _ _, false))
               (assign_password "s3cret" new_user) demo_world
  = (Thrown "bcrypt", demo_world).
Proof.
  apply (failed_hashing_refuses_save demo_env
           (mkBcrypt (λ _, None) (λ _ _, None) (λ _ _, false))
           (assign_password "s3cret" new_user) demo_world); [reflexivity|reflexivity|].
  left. reflexivity.
Defined.

(* ================================================================== *)
(** * The task form *)
(* ================================================================== *)

Lemma nonempty_true (s : string) : nonempty s = true ↔ s ≠ ""%string.
Proof. unfold nonempty. destruct (String.eqb_spec s ""); split; done. Qed.

Lemma nonempty_false (s : string) : nonempty s = false ↔ s = ""%string.
Proof. unfold nonempty. destruct (String.eqb_spec s ""); split; done. Qed.

Ltac nonempty_hyps :=
  repeat match goal with
         | H : nonempty _ = true |- _ => apply nonempty_true in H
         | H : nonempty _ = false |- _ => apply nonempty_false in H
         end.

(** The form hands nothing to [onSave] exactly when the title is empty
    after trimming, or the status is empty, or a due date is entered
    that [Date.parse] cannot read.  An empty due date is no error. *)
Theorem form_refused_iff_invalid (js : Browser) (f : FormState) :
  handleSubmit js f = None ↔
    trim js (form_title f) = ""%string
    ∨ form_status f = ""%string
    ∨ (form_dueDate f ≠ ""%string ∧ Date_parse js (form_dueDate f) = None).
Proof.
  unfold handleSubmit, validate, validate_errs, no_errors. simpl.
  destruct (nonempty (trim js (form_title f))) eqn:Htitle,
    (nonempty (form_status f)) eqn:Hstatus,
    (nonempty (form_dueDate f)) eqn:Hdue,
    (Date_parse js (form_dueDate f)) eqn:Hparse; simpl;
    nonempty_hyps; intuition (try congruence; try discriminate).
Qed.

(** What the form submits, the server's schema accepts: the title of
    the data is the trimmed input and is not empty, so it passes
    [required]; the status is the one selected; a due date that was
    entered is present, and none is sent when the input was empty.  With
    a status out of the select's options and any owner, the document
    made of the data passes all validators of [TaskSchema]. *)
Theorem submitted_form_passes_schema (js : Browser) (f : FormState) (b : TaskBody) :
  handleSubmit js f = Some b →
  body_title b = Some (trim js (form_title f)) ∧
  required_string (body_title b) = true ∧
  body_status b = Some (Some (form_status f)) ∧
  (form_dueDate f ≠ ""%string → is_Some (body_dueDate b)) ∧
  (form_dueDate f = ""%string → body_dueDate b = None) ∧
  (form_status f ∈ TASK_STATUS →
   ∀ (o : string) (created : Z),
     TaskSchema_validate
       (mkTask (body_title b) (body_description b)
               (status_default (body_status b)) (body_dueDate b)
               (Some o) [] [] created created) = true).
Proof.
  unfold handleSubmit, validate, validate_errs, no_errors. simpl.
  destruct (nonempty (trim js (form_title f))) eqn:Htitle; simpl; [|done].
  destruct (nonempty (form_status f)) eqn:Hstatus; simpl; [|done].
  destruct (nonempty (form_dueDate f)) eqn:Hdue; simpl.
  - destruct (Date_parse js (form_dueDate f)) as [instant|] eqn:Hparse; simpl; [|done].
    intros [= <-]. simpl. unfold nonempty in Htitle.
    repeat split; try done.
    + by apply nonempty_true in Hdue.
    + intros Hin o created. apply includes_true_iff in Hin.
      unfold TaskSchema_validate. rewrite !andb_true_iff.
      split; [split; [exact Htitle|exact Hin]|reflexivity].
  - intros [= <-]. simpl. unfold nonempty in Htitle.
    repeat split; try done.
    + apply nonempty_false in Hdue. by intros ?.
    + intros Hin o created. apply includes_true_iff in Hin.
      unfold TaskSchema_validate. rewrite !andb_true_iff.
      split; [split; [exact Htitle|exact Hin]|reflexivity].
Qed.

Lemma submitted_form_passes_schema_witness :
  body_title (mkTaskBody (Some "Write report"%string) (Some ""%string)
                         (Some (Some "Pending"%string)) (Some 1762732800000%Z))
    = Some (trim demo_browser (form_title demo_form)) ∧
  required_string (Some "Write report"%string) = true ∧
  Some (Some "Pending"%string) = Some (Some (form_status demo_form)) ∧
  (form_dueDate demo_form ≠ ""%string → is_Some (Some 1762732800000%Z)) ∧
  (form_dueDate demo_form = ""%string → Some 1762732800000%Z = None) ∧
  (form_status demo_form ∈ TASK_STATUS →
   ∀ (o : string) (created : Z),
     TaskSchema_validate
       (mkTask (Some "Write report"%string) (Some ""%string)
               (status_default (Some (Some "Pending"%string))) (Some 1762732800000%Z)
               (Some o) [] [] created created) = true).
Proof.
  apply (submitted_form_passes_schema demo_browser demo_form
           (mkTaskBody (Some "Write report"%string) (Some ""%string)
                       (Some (Some "Pending"%string)) (Some 1762732800000%Z))).
  reflexivity.
Defined.

(* ================================================================== *)
(** * The task list *)
(* ================================================================== *)

Lemma prefix_spec (p s : string) :
  String.prefix p s = true ↔ ∃ rest, s = p +:+ rest.
Proof.
  revert p. induction s as [|c' s IH]; intros [|c p]; simpl.
  - split; [by exists ""%string|done].
  - split; [done|]. by intros [? ?].
  - split; [by eexists|done].
  - destruct (ascii_dec c c') as [->|Hne].
    + rewrite IH. split; intros [rest Hrest]; exists rest;
        rewrite append_cons in *; congruence.
    + split; [done|]. intros [rest Hrest]. rewrite append_cons in Hrest. congruence.
Qed.

(** [includes] finds a part exactly when the text is some text, the
    part, and some text. *)
Lemma String_includes_spec (text part : string) :
  String_includes text part = true ↔ contains text part.
Proof.
  unfold contains. induction text as [|c text IH].
  - change (String_includes "" part) with (String.prefix part "" || false).
    rewrite orb_false_r, prefix_spec. split.
    + intros [rest Hrest]. by exists ""%string, rest.
    + intros (before & after & Heq). destruct before; [by exists after|done].
  - change (String_includes (String c text) part)
      with (String.prefix part (String c text) || String_includes text part).
    rewrite orb_true_iff, IH, prefix_spec. split.
    + intros [[rest Hrest]|(before & after & Heq)].
      * by exists ""%string, rest.
      * exists (String c before), after. rewrite append_cons. by rewrite Heq.
    + intros (before & after & Heq). destruct before as [|c' before].
      * left. by exists after.
      * right. exists before, after. rewrite append_cons in Heq. congruence.
Qed.

#[global] Instance completion_eq_dec {A} `{EqDecision A} : EqDecision (completion A).
Proof. solve_decision. Defined.

Lemma Array_filter_Normal {A} (callback : A → completion bool) (l kept : list A) :
  Array_filter callback l = Normal kept →
  kept = filter (λ x, callback x = Normal true) l ∧
  ∀ x, x ∈ l → ∃ keep, callback x = Normal keep.
Proof.
  revert kept. induction l as [|x l IH]; intros kept; simpl.
  - intros [= <-]. split; [done|]. intros x Hx. inversion Hx.
  - destruct (callback x) as [keep|e] eqn:Hx; [|done].
    destruct (Array_filter callback l) as [kept'|e]; [|done].
    intros [= <-]. destruct (IH kept' eq_refl) as [-> Hall]. split.
    + rewrite filter_cons. destruct keep.
      * by rewrite decide_True.
      * rewrite decide_False; [done|]. by rewrite Hx.
    + intros y [->|Hy]%elem_of_cons; [by exists keep|by apply Hall].
Qed.

Lemma Array_filter_total {A} (callback : A → completion bool) (l : list A) :
  (∀ x, x ∈ l → ∃ keep, callback x = Normal keep) →
  ∃ kept, Array_filter callback l = Normal kept.
Proof.
  induction l as [|x l IH]; intros Hall; simpl; [by eexists|].
  destruct (Hall x) as [keep ->]; [by left|].
  destruct IH as [kept ->]; [intros y Hy; apply Hall; by right|]. by eexists.
Qed.

Lemma Array_filter_throws {A} (callback : A → completion bool) (l : list A) (x : A)
    (e : string) :
  x ∈ l → callback x = Thrown e → ∃ e', Array_filter callback l = Thrown e'.
Proof.
  induction l as [|y l IH]; intros Hx Hthrow; [inversion Hx|]. simpl.
  apply elem_of_cons in Hx as [->|Hx].
  - rewrite Hthrow. by eexists.
  - destruct (callback y); [|by eexists].
    destruct (IH Hx Hthrow) as [e' ->]. by eexists.
Qed.

(** When every task has a title, the list shows, in the order of the
    tasks, exactly those whose status is the selected one (any status
    for the filter All) and whose title, or non-empty description,
    contains the search term, both taken in lower case. *)
Theorem filteredTasks_shows_the_matches (js : Browser) (tasks : list Task)
    (filterStatus searchTerm : string) :
  (∀ t, t ∈ tasks → is_Some (title t)) →
  ∃ shown,
    filteredTasks js tasks filterStatus searchTerm = Normal shown ∧
    shown `sublist_of` tasks ∧
    ∀ t, t ∈ shown ↔
      t ∈ tasks ∧
      (filterStatus = "All"%string ∨ status t = Some filterStatus) ∧
      ((∃ task_title, title t = Some task_title ∧
          contains (toLowerCase js task_title) (toLowerCase js searchTerm))
       ∨ (∃ d, description t = Some d ∧ d ≠ ""%string ∧
          contains (toLowerCase js d) (toLowerCase js searchTerm))).
Proof.
  intros Htitles. unfold filteredTasks.
  destruct (Array_filter_total (task_matches js filterStatus searchTerm) tasks) as [shown Hrun].
  { intros t Ht. destruct (Htitles t Ht) as [task_title Htt].
    unfold task_matches. rewrite Htt. by eexists. }
  exists shown. split; [done|].
  apply Array_filter_Normal in Hrun as [-> _]. split; [apply sublist_filter|].
  intros t. rewrite list_elem_of_filter. split.
  - intros [Hmatch Ht]. split; [done|]. unfold task_matches in Hmatch.
    destruct (title t) as [task_title|]; [|done].
    injection Hmatch as Hmatch. apply andb_true_iff in Hmatch as [Hstatus Hsearch].
    split.
    + apply orb_true_iff in Hstatus as [H|H]; [left; by apply String.eqb_eq|].
      right. destruct (status t) as [task_status|]; [|done].
      by apply String.eqb_eq in H as ->.
    + apply orb_true_iff in Hsearch as [H|H].
      * left. exists task_title. split; [done|]. by apply String_includes_spec.
      * right. destruct (description t) as [d|]; [|done].
        apply andb_true_iff in H as [Hd H]. exists d. split; [done|].
        split; [by apply nonempty_true|by apply String_includes_spec].
  - intros (Ht & Hstatus & Hsearch). split; [|done]. unfold task_matches.
    destruct (Htitles t Ht) as [task_title Htt]. rewrite Htt. f_equal.
    apply andb_true_iff. split.
    + apply orb_true_iff. destruct Hstatus as [->|Hs]; [by left|].
      right. rewrite Hs. by apply String.eqb_eq.
    + apply orb_true_iff. destruct Hsearch as [(tt' & Htt' & Hc)|(d & Hd & Hne & Hc)].
      * left. assert (tt' = task_title) as -> by congruence. by apply String_includes_spec.
      * right. rewrite Hd. apply andb_true_iff.
        split; [by apply nonempty_true|by apply String_includes_spec].
Qed.

Lemma filteredTasks_shows_the_matches_witness :
  ∃ shown,
    filteredTasks demo_browser (documents board) "Pending" "report" = Normal shown ∧
    shown `sublist_of` documents board ∧
    ∀ t, t ∈ shown ↔
      t ∈ documents board ∧
      ("Pending"%string = "All"%string ∨ status t = Some "Pending"%string) ∧
      ((∃ task_title, title t = Some task_title ∧
          contains (toLowerCase demo_browser task_title) (toLowerCase demo_browser "report"))
       ∨ (∃ d, description t = Some d ∧ d ≠ ""%string ∧
          contains (toLowerCase demo_browser d) (toLowerCase demo_browser "report"))).
Proof.
  apply (filteredTasks_shows_the_matches demo_browser (documents board) "Pending" "report").
  apply Forall_forall. apply (bool_decide_unpack _). vm_compute. exact I.
Defined.

(** With the filter All and an empty search box the list shows every
    task, given that each has a title and that the lower case of the
    empty string is the empty string. *)
Theorem filteredTasks_all_with_empty_search (js : Browser) (tasks : list Task) :
  toLowerCase js "" = ""%string →
  (∀ t, t ∈ tasks → is_Some (title t)) →
  filteredTasks js tasks "All" "" = Normal tasks.
Proof.
  intros Hlower. unfold filteredTasks.
  induction tasks as [|t tasks IH]; intros Htitles; [done|]. simpl.
  destruct (Htitles t) as [task_title Htt]; [by left|].
  unfold task_matches at 1. rewrite Htt, Hlower.
  assert (Hin : String_includes (toLowerCase js task_title) "" = true).
  { apply String_includes_spec. by exists ""%string, (toLowerCase js task_title). }
  rewrite Hin. simpl. rewrite IH; [done|]. intros t' Ht'. apply Htitles. by right.
Qed.

Lemma filteredTasks_all_with_empty_search_witness :
  filteredTasks demo_browser (documents board) "All" "" = Normal (documents board).
Proof.
  apply (filteredTasks_all_with_empty_search demo_browser (documents board)).
  - reflexivity.
  - apply Forall_forall. apply (bool_decide_unpack _). vm_compute. exact I.
Defined.

(** The title is read unguarded: one task without a title among the
    tasks makes the whole filter throw, whatever the status filter and
    the search term, while a missing description is harmless. *)
Theorem filteredTasks_throws_on_untitled_task (js : Browser) (tasks : list Task)
    (filterStatus searchTerm : string) (t : Task) :
  t ∈ tasks →
  title t = None →
  ∃ e, filteredTasks js tasks filterStatus searchTerm = Thrown e.
Proof.
  intros Ht Hnone. unfold filteredTasks.
  apply (Array_filter_throws _ tasks t "TypeError"); [done|].
  unfold task_matches. by rewrite Hnone.
Qed.

Lemma filteredTasks_throws_on_untitled_task_witness :
  ∃ e, filteredTasks demo_browser
         [report; mkTask None None (Some "Pending"%string) None (Some alice_id) [] [] 0 0]
         "All" "" = Thrown e.
Proof.
  apply (filteredTasks_throws_on_untitled_task demo_browser _ "All" ""
           (mkTask None None (Some "Pending"%string) None (Some alice_id) [] [] 0 0)).
  - apply elem_of_cons. right. apply elem_of_cons. by left.
  - reflexivity.
Defined.
